(** * Transaction / attachment matching: a shallow embedding of [src/match.py]

    The Python module reconciles bank transactions with attachments
    (invoices, receipts).  This file embeds its functions one by one, under
    their Python names, and states the properties of the specification
    about them.

    Data:
    - a Python [str] is a [string]; whitespace ([str.isspace], the regular
      expression class [\s]) and the case mappings [str.lower] and
      [str.upper] are those of Python on the ASCII range, which is the range
      the model covers;
    - an amount is an IEEE-754 binary64 number, a primitive [float], as it is
      once [float(...)] has been applied to the JSON number; [str] of a float
      is Python's shortest round-trip [repr], and [%] is Python's float
      remainder;
    - [None], a missing key and an absent value are [None] of an [option];
    - a [set] of words is a [gset string];
    - a score is an integer, [Z].

    The first part holds the definitions, the second the properties: the
    reference normalizer and its fixed points, the symmetry of the name
    matcher, the date window, the two stages of the query layer, and the
    amount comparator on floats, for which the order and the rounding of
    binary64 numbers are taken from the specification of the primitive
    floats in the Standard Library.  A last part, Further properties,
    covers what these leave out of the same functions: the shape of the
    normalized forms, the values of the specificity and of the score, the
    counterparty extractor, the tolerance of the date window, the signs
    and the bounds of the amount gate, and the results of the two
    queries. *)

From Stdlib Require Import ZArith List Ascii String Bool Lia.
From Stdlib Require Import QArith Qround Floats Uint63 DecimalString.
From stdpp Require Import base gmap sets strings.

Set Warnings "-inexact-float,-clear-no-such-hyp".
Local Open Scope Z_scope.

(** ** Characters and strings *)

Module Str.

(** [str.isspace] on the ASCII range: TAB, LF, VT, FF, CR, the four
    separators FS, GS, RS, US, and the space. *)
Definition is_space (c : ascii) : bool :=
  let n := N_of_ascii c in
  (((9 <=? n) && (n <=? 13)) || ((28 <=? n) && (n <=? 32)))%N.

Definition upper_char (c : ascii) : ascii :=
  let n := N_of_ascii c in
  if ((97 <=? n) && (n <=? 122))%N then ascii_of_N (n - 32) else c.

Definition lower_char (c : ascii) : ascii :=
  let n := N_of_ascii c in
  if ((65 <=? n) && (n <=? 90))%N then ascii_of_N (n + 32) else c.

Fixpoint map (f : ascii -> ascii) (s : string) : string :=
  match s with
  | EmptyString => EmptyString
  | String c s' => String (f c) (map f s')
  end.

Fixpoint filter (p : ascii -> bool) (s : string) : string :=
  match s with
  | EmptyString => EmptyString
  | String c s' => if p c then String c (filter p s') else filter p s'
  end.

Fixpoint forallb (p : ascii -> bool) (s : string) : bool :=
  match s with
  | EmptyString => true
  | String c s' => p c && forallb p s'
  end.

(** [s.upper()] and [s.lower()] *)
Definition upper : string -> string := map upper_char.
Definition lower : string -> string := map lower_char.

(** Truth value of a string: [not s] is [is_empty s]. *)
Definition is_empty (s : string) : bool :=
  match s with EmptyString => true | _ => false end.

(** [s.lstrip()], [s.rstrip()] and [s.strip()] *)
Fixpoint lstrip (s : string) : string :=
  match s with
  | EmptyString => EmptyString
  | String c s' => if is_space c then lstrip s' else s
  end.

Fixpoint rstrip (s : string) : string :=
  match s with
  | EmptyString => EmptyString
  | String c s' =>
      let r := rstrip s' in
      if is_empty r && is_space c then EmptyString else String c r
  end.

Definition strip (s : string) : string := rstrip (lstrip s).

(** [s[n:]] and [s[:n]] *)
Fixpoint drop (n : nat) (s : string) : string :=
  match n, s with
  | O, _ => s
  | S n', String _ s' => drop n' s'
  | S _, EmptyString => EmptyString
  end.

Fixpoint take (n : nat) (s : string) : string :=
  match n, s with
  | O, _ => EmptyString
  | S n', String c s' => String c (take n' s')
  | S _, EmptyString => EmptyString
  end.

(** [s.startswith(p)] *)
Fixpoint startswith (p s : string) : bool :=
  match p, s with
  | EmptyString, _ => true
  | String a p', String b s' => Ascii.eqb a b && startswith p' s'
  | String _ _, EmptyString => false
  end.

(** [p in s] for strings: [p] occurs in [s] as a contiguous run. *)
Fixpoint contains (p s : string) : bool :=
  startswith p s ||
  match s with
  | EmptyString => false
  | String _ s' => contains p s'
  end.

Fixpoint rev_append (acc s : string) : string :=
  match acc with
  | EmptyString => s
  | String c acc' => rev_append acc' (String c s)
  end.

Definition flush (cur : string) (out : list string) : list string :=
  match cur with
  | EmptyString => out
  | _ => rev_append cur EmptyString :: out
  end.

(** [s.split()]: the maximal runs of non-whitespace characters.  [cur]
    is the run being read, in reverse. *)
Fixpoint split_go (s cur : string) : list string :=
  match s with
  | EmptyString => flush cur nil
  | String c s' =>
      if is_space c then flush cur (split_go s' EmptyString)
      else split_go s' (String c cur)
  end.

Definition split (s : string) : list string := split_go s EmptyString.

(** [sep.join(l)] *)
Fixpoint join (sep : string) (l : list string) : string :=
  match l with
  | nil => EmptyString
  | x :: l' =>
      match l' with
      | nil => x
      | _ => (x ++ sep ++ join sep l')%string
      end
  end.

(** [s.split(sep)] for a one-character separator: the fields between the
    occurrences of [sep], empty ones included. *)
Fixpoint split_on_go (sep : ascii) (s cur : string) : list string :=
  match s with
  | EmptyString => rev_append cur EmptyString :: nil
  | String c s' =>
      if Ascii.eqb c sep
      then rev_append cur EmptyString :: split_on_go sep s' EmptyString
      else split_on_go sep s' (String c cur)
  end.

Definition split_on (sep : ascii) (s : string) : list string :=
  split_on_go sep s EmptyString.

(** [n * c] for a character: [c] repeated [n] times. *)
Fixpoint repeat (c : ascii) (n : nat) : string :=
  match n with
  | O => EmptyString
  | S n' => String c (repeat c n')
  end.

End Str.

(** Truth value of an optional string ([None] and the empty string are
    false): the value when it is true. *)
Definition truthy (o : option string) : option string :=
  match o with
  | Some s => if Str.is_empty s then None else Some s
  | None => None
  end.

(** ** Reference Normalizer *)

(** [re.sub(r'\s+', '', s)]: every whitespace character is removed. *)
Definition remove_whitespace (s : string) : string :=
  Str.filter (fun c => negb (Str.is_space c)) s.

(** [re.sub(r'^0+', '', s)]: the leading zeros are removed. *)
Fixpoint strip_leading_zeros (s : string) : string :=
  match s with
  | String "0" s' => strip_leading_zeros s'
  | _ => s
  end.

(** [s or '0'] *)
Definition or_zero (s : string) : string :=
  if Str.is_empty s then "0"%string else s.

Definition _normalize_reference (reference : string) : string :=
  if Str.is_empty reference || Str.is_empty (Str.strip reference) then ""%string
  else
    let normalized := remove_whitespace (Str.upper reference) in
    if Str.startswith "RF" normalized then
      let prefix := "RF"%string in
      let number_part := Str.drop 2 normalized in
      let number_part := or_zero (strip_leading_zeros number_part) in
      (prefix ++ number_part)%string
    else or_zero (strip_leading_zeros normalized).

(** ** Name Normalizer and Matcher *)

Definition _normalize_name (name : string) : string :=
  if Str.is_empty name then ""%string
  else Str.join " " (Str.split (Str.lower name)).

(** [len(a) / b] and the like: true division of two lengths. *)
Definition float_of_nat (n : nat) : float :=
  PrimFloat.of_uint63 (Uint63.of_Z (Z.of_nat n)).

Definition suffixes : gset string :=
  list_to_set
    ("oy" :: "ltd" :: "corp" :: "inc" :: "tmi" :: "ab" :: "as" :: "gmbh"
       :: "company" :: "co" :: nil)%string.

(** [list(s)[0]] for a set [s] of one element (the empty string stands
    for the [IndexError] of an empty set, which [_names_match] never
    reaches). *)
Definition first_of (s : gset string) : string :=
  match elements s with
  | w :: _ => w
  | nil => ""%string
  end.

Definition _names_match (name1 name2 : string) : bool :=
  if Str.is_empty name1 || Str.is_empty name2 then false
  else
    let norm1 := _normalize_name name1 in
    let norm2 := _normalize_name name2 in
    if String.eqb norm1 norm2 then true
    else if Str.contains norm1 norm2 || Str.contains norm2 norm1 then true
    else
      let words1 : gset string := list_to_set (Str.split norm1) in
      let words2 : gset string := list_to_set (Str.split norm2) in
      if Nat.eqb (size words1) 0 || Nat.eqb (size words2) 0 then false
      else
        let common_words := words1 ∩ words2 in
        let total_words := Nat.min (size words1) (size words2) in
        if Nat.leb 2 (size common_words) then
          let overlap_ratio :=
            (float_of_nat (size common_words) / float_of_nat total_words)%float in
          (0.5 <=? overlap_ratio)%float
        else if Nat.eqb (size common_words) 1 && Nat.leb total_words 2 then
          let non_common1 := words1 ∖ common_words in
          let non_common2 := words2 ∖ common_words in
          if Nat.eqb (size non_common1) 0 || Nat.eqb (size non_common2) 0 then true
          else if Nat.eqb (size non_common1) 1 && Nat.eqb (size non_common2) 1 then
            let word1 := first_of non_common1 in
            let word2 := first_of non_common2 in
            if bool_decide (Str.lower word1 ∈ suffixes)
               || bool_decide (Str.lower word2 ∈ suffixes)
            then true else false
          else false
        else false.

Definition _calculate_name_specificity (name1 name2 : string) : Z :=
  if Str.is_empty name1 || Str.is_empty name2 then 0
  else
    let norm1 := _normalize_name name1 in
    let norm2 := _normalize_name name2 in
    if String.eqb norm1 norm2 then 4
    else if Str.contains norm1 norm2 || Str.contains norm2 norm1 then
      let longer_name :=
        if Nat.ltb (String.length norm1) (String.length norm2) then norm2 else norm1 in
      let shorter_name :=
        if Nat.ltb (String.length norm1) (String.length norm2) then norm1 else norm2 in
      if Str.contains shorter_name longer_name then 5
      else
        let overlap_ratio :=
          (float_of_nat (Nat.min (String.length norm1) (String.length norm2))
           / float_of_nat (Nat.max (String.length norm1) (String.length norm2)))%float in
        if (0.75 <? overlap_ratio)%float then 3 else 2
    else 0.

(** ** Records *)

(** A transaction: the keys [id], [amount], [date], [contact] and
    [reference] of the Python dictionary. *)
Module Tx.
Record t : Type := mk {
  id : Z;
  amount : option float;
  date : option string;
  contact : option string;
  reference : option string
}.
End Tx.

(** An attachment: its [id] and its [data] dictionary. *)
Module Att.
Record Data : Type := mkData {
  total_amount : option float;
  reference : option string;
  due_date : option string;
  invoicing_date : option string;
  receiving_date : option string;
  issuer : option string;
  recipient : option string;
  supplier : option string
}.
Record t : Type := mk {
  id : Z;
  data : option Data
}.
(** The empty dictionary. *)
Definition no_data : Data := mkData None None None None None None None None.
(** [attachment.get('data', {})] *)
Definition get_data (attachment : t) : Data :=
  match data attachment with
  | Some d => d
  | None => no_data
  end.
End Att.

(** ** Counterparty Extractor *)

Definition _get_attachment_counterparty_names (attachment : Att.t) : list string :=
  let data := Att.get_data attachment in
  let names :=
    flat_map
      (fun field : Att.Data -> option string =>
         match truthy (field data) with
         | Some name => name :: nil
         | None => nil
         end)
      (Att.issuer :: Att.recipient :: Att.supplier :: nil) in
  List.filter
    (fun name =>
       negb (Str.is_empty name)
       && negb (Str.contains "example company" (Str.lower name)))
    names.

(** ** Date Compatibility Checker *)

Module Date.

Record t : Type := mk { year : Z; month : Z; day : Z }.

Definition is_digit (c : ascii) : bool :=
  let n := N_of_ascii c in ((48 <=? n) && (n <=? 57))%N.

Definition digit (c : ascii) : Z := Z.of_N (N_of_ascii c) - 48.

(** A character class [[a-b]] of digits. *)
Definition between (a b : Z) (c : ascii) : bool :=
  is_digit c && (a <=? digit c) && (digit c <=? b).

(** The group [%m] of [strptime], [1[0-2]|0[1-9]|[1-9]]: the ways it
    matches at the head of [s], in the order of the alternatives, each
    with the text left. *)
Definition month_re (s : string) : list (Z * string) :=
  match s with
  | String c1 r1 =>
      (match r1 with
       | String c2 r2 =>
           (if Ascii.eqb c1 "1" && between 0 2 c2 then (10 + digit c2, r2) :: nil else nil)
           ++ (if Ascii.eqb c1 "0" && between 1 9 c2 then (digit c2, r2) :: nil else nil)
       | EmptyString => nil
       end)
      ++ (if between 1 9 c1 then (digit c1, r1) :: nil else nil)
  | EmptyString => nil
  end.

(** The group [%d], [3[0-1]|[1-2]\d|0[1-9]|[1-9]| [1-9]]. *)
Definition day_re (s : string) : list (Z * string) :=
  match s with
  | String c1 r1 =>
      (match r1 with
       | String c2 r2 =>
           (if Ascii.eqb c1 "3" && between 0 1 c2 then (30 + digit c2, r2) :: nil else nil)
           ++ (if between 1 2 c1 && is_digit c2 then (10 * digit c1 + digit c2, r2) :: nil else nil)
           ++ (if Ascii.eqb c1 "0" && between 1 9 c2 then (digit c2, r2) :: nil else nil)
       | EmptyString => nil
       end)
      ++ (if between 1 9 c1 then (digit c1, r1) :: nil else nil)
      ++ (match r1 with
          | String c2 r2 =>
              if Ascii.eqb c1 " " && between 1 9 c2 then (digit c2, r2) :: nil else nil
          | EmptyString => nil
          end)
  | EmptyString => nil
  end.

(** The regular expression of the format ['%Y-%m-%d'],
    [(\d\d\d\d)-(%m)-(%d)], matched at the head of [s] with backtracking:
    the first way to match, with the text left. *)
Definition format_match (s : string) : option (Z * Z * Z * string) :=
  match s with
  | String y1 (String y2 (String y3 (String y4 (String "-" r)))) =>
      if is_digit y1 && is_digit y2 && is_digit y3 && is_digit y4 then
        let y := 1000 * digit y1 + 100 * digit y2 + 10 * digit y3 + digit y4 in
        head
          (flat_map
             (fun mr : Z * string =>
                match snd mr with
                | String "-" r' =>
                    List.map (fun dr : Z * string => (y, fst mr, fst dr, snd dr)) (day_re r')
                | _ => nil
                end)
             (month_re r))
      else None
  | _ => None
  end.

Definition is_leap (y : Z) : bool :=
  (y mod 4 =? 0) && (negb (y mod 100 =? 0) || (y mod 400 =? 0)).

Definition days_in_month (y m : Z) : Z :=
  if m =? 2 then (if is_leap y then 29 else 28)
  else if (m =? 4) || (m =? 6) || (m =? 9) || (m =? 11) then 30
  else 31.

(** The days of the months before month [m]. *)
Definition days_before_month (y m : Z) : Z :=
  fold_right Z.add 0
    (List.map (days_in_month y) (List.map Z.of_nat (seq 1 (Z.to_nat (m - 1))))).

Definition days_before_year (y : Z) : Z :=
  let y1 := y - 1 in y1 * 365 + y1 / 4 - y1 / 100 + y1 / 400.

(** [datetime(y, m, d)] exists. *)
Definition valid (y m d : Z) : bool :=
  (1 <=? y) && (y <=? 9999) && (1 <=? m) && (m <=? 12)
  && (1 <=? d) && (d <=? days_in_month y m).

(** [datetime.strptime(s, '%Y-%m-%d')]; [None] is [ValueError]: the text
    does not match, text remains after the match, or there is no such
    day. *)
Definition strptime (s : string) : option t :=
  match format_match s with
  | Some (y, m, d, rest) =>
      if Str.is_empty rest && valid y m d then Some (mk y m d) else None
  | None => None
  end.

(** [d.toordinal()]: the day number, 1 for 0001-01-01. *)
Definition toordinal (d : t) : Z :=
  days_before_year (year d) + days_before_month (year d) (month d) + day d.

(** [(a - b).days] for two dates at midnight. *)
Definition days_between (a b : t) : Z := toordinal a - toordinal b.

End Date.

(** The loop of [_are_dates_compatible] over the date fields. *)
Fixpoint dates_loop (tx_dt : Date.t) (tolerance_days : Z)
    (values : list (option string)) : bool :=
  match values with
  | nil => false
  | value :: rest =>
      match truthy value with
      | Some text =>
          match Date.strptime text with
          | Some att_dt =>
              let diff_days := Z.abs (Date.days_between tx_dt att_dt) in
              if diff_days <=? tolerance_days then true
              else dates_loop tx_dt tolerance_days rest
          | None => dates_loop tx_dt tolerance_days rest
          end
      | None => dates_loop tx_dt tolerance_days rest
      end
  end.

Definition date_fields : list (Att.Data -> option string) :=
  Att.due_date :: Att.invoicing_date :: Att.receiving_date :: nil.

Definition _are_dates_compatible (tx_date : string) (att_data : Att.Data)
    (tolerance_days : Z) : bool :=
  match Date.strptime tx_date with
  | Some tx_dt =>
      dates_loop tx_dt tolerance_days
        (List.map (fun field => field att_data) date_fields)
  | None => false
  end.

(** ** Floats: [str(x)] and [x % 1] *)

Module Repr.

(** The value [m * 2^e] of a finite float, and [d * 10^k]. *)
Definition dyadic (m e : Z) : Q := inject_Z m * Qpower 2 e.
Definition decimal (d k : Z) : Q := inject_Z d * Qpower 10 k.

(** The reals that round to the float [m * 2^e] (to nearest, ties to
    even) lie between [lo] and [hi]; the bounds themselves round to it
    when [m] is even.  Below a power of two the lower neighbour is twice
    as close. *)
Definition lo (m e : Z) : Q :=
  if (m =? 2 ^ 52) && (-1074 <? e) then dyadic (4 * m - 1) (e - 2)
  else dyadic (2 * m - 1) (e - 1).

Definition hi (m e : Z) : Q := dyadic (2 * m + 1) (e - 1).

Definition rounds_to (m e : Z) (q : Q) : bool :=
  if Z.even m then Qle_bool (lo m e) q && Qle_bool q (hi m e)
  else negb (Qle_bool q (lo m e)) && negb (Qle_bool (hi m e) q).

(** The largest [p] with [10^p <= m * 2^e], searched upwards from an
    underestimate: [2^l <= m * 2^e < 2^(l+1)] for [l = log2 m + e], and
    [0.30103] approximates [log10 2]. *)
Fixpoint log10_from (fuel : nat) (v : Q) (p : Z) : Z :=
  match fuel with
  | O => p
  | S fuel' =>
      if Qle_bool (decimal 1 (p + 1)) v then log10_from fuel' v (p + 1) else p
  end.

Definition log10_floor (m e : Z) : Z :=
  log10_from 4 (dyadic m e) ((Z.log2 m + e) * 30103 / 100000 - 1).

(** The decimal of [n] significant digits nearest to the float among
    those that round to it, if there is one: the digits as an integer [d]
    and the exponent [k], for the value [d * 10^k].  The float lies
    between [d * 10^k] and [(d + 1) * 10^k]; twice its value is compared
    with their sum. *)
Definition candidate (m e p : Z) (n : Z) : option (Z * Z) :=
  let v := dyadic m e in
  let k := p - n + 1 in
  let d := Qfloor (v / decimal 1 k) in
  let below := rounds_to m e (decimal d k) in
  let above := rounds_to m e (decimal (d + 1) k) in
  match Qcompare (dyadic (2 * m) e) (decimal (2 * d + 1) k) with
  | Lt => if below then Some (d, k) else if above then Some (d + 1, k) else None
  | Gt => if above then Some (d + 1, k) else if below then Some (d, k) else None
  | Eq =>
      if below && above then Some (if Z.even d then d else d + 1, k)
      else if below then Some (d, k) else if above then Some (d + 1, k) else None
  end.

(** The shortest such decimal: 1, 2, ... significant digits are tried;
    17 always do. *)
Fixpoint shortest_from (fuel : nat) (m e p n : Z) : Z * Z :=
  match fuel with
  | O => (Qfloor (dyadic m e / decimal 1 (p - n + 1)), p - n + 1)
  | S fuel' =>
      match candidate m e p n with
      | Some r => r
      | None => shortest_from fuel' m e p (n + 1)
      end
  end.

Fixpoint strip_trailing_zeros (fuel : nat) (d k : Z) : Z * Z :=
  match fuel with
  | O => (d, k)
  | S fuel' =>
      if (d mod 10 =? 0) && negb (d =? 0)
      then strip_trailing_zeros fuel' (d / 10) (k + 1)
      else (d, k)
  end.

Definition digits_of (d : Z) : string :=
  NilZero.string_of_uint (N.to_uint (Z.to_N d)).

(** The digits of the shortest decimal that reads back as the float
    [m * 2^e], without trailing zeros, and the position [decpt] of the
    decimal point: the value is [0.d1d2... * 10^decpt]. *)
Definition shortest (m e : Z) : string * Z :=
  let p := log10_floor m e in
  let '(d, k) := shortest_from 17 m e p 1 in
  let '(d, k) := strip_trailing_zeros 20 d k in
  let digits := digits_of d in
  (digits, Z.of_nat (String.length digits) + k).

(** The exponent of the scientific notation: a sign, and two digits at
    least. *)
Definition exponent_text (x : Z) : string :=
  let sign := if x <? 0 then "-"%string else "+"%string in
  let pad := if Z.abs x <? 10 then "0"%string else ""%string in
  (sign ++ pad ++ digits_of (Z.abs x))%string.

(** [repr] of a positive finite float from its digits and [decpt]:
    scientific notation for [decpt <= -4] and [decpt > 16], positional
    notation otherwise, with [.0] after an integer. *)
Definition format (digits : string) (decpt : Z) : string :=
  let n := Z.of_nat (String.length digits) in
  if (decpt <=? -4) || (16 <? decpt) then
    let fraction := if 1 <? n then ("." ++ Str.drop 1 digits)%string else ""%string in
    (Str.take 1 digits ++ fraction ++ "e" ++ exponent_text (decpt - 1))%string
  else if decpt <=? 0 then
    ("0." ++ Str.repeat "0" (Z.to_nat (- decpt)) ++ digits)%string
  else if n <=? decpt then
    (digits ++ Str.repeat "0" (Z.to_nat (decpt - n)) ++ ".0")%string
  else
    (Str.take (Z.to_nat decpt) digits ++ "." ++ Str.drop (Z.to_nat decpt) digits)%string.

End Repr.

(** [str(x)] for a float [x] *)
Definition float_str (x : float) : string :=
  match Prim2SF x with
  | S754_nan => "nan"%string
  | S754_infinity s => if s then "-inf"%string else "inf"%string
  | S754_zero s => if s then "-0.0"%string else "0.0"%string
  | S754_finite s m e =>
      let '(digits, decpt) := Repr.shortest (Zpos m) e in
      let sign := if s then "-"%string else ""%string in
      (sign ++ Repr.format digits decpt)%string
  end.

(** [x % 1] for a float [x]: the C remainder [fmod(x, 1.0)], which is exact
    and has the sign of [x], moved into [0, 1) by adding 1 when negative;
    a zero remainder is [+0.0]. *)
Definition float_mod_one (x : float) : float :=
  match Prim2SF x with
  | S754_nan | S754_infinity _ => nan
  | S754_zero _ => 0%float
  | S754_finite s m e =>
      if 0 <=? e then 0%float
      else
        let r := Zpos m mod 2 ^ (- e) in
        if r =? 0 then 0%float
        else
          let f := Z.ldexp (PrimFloat.of_uint63 (Uint63.of_Z r)) e in
          if s then (- f + 1)%float else f
  end.

(** ** Amount Comparator *)

(** [len(text.split('.')[-1]) if '.' in text else 0] *)
Definition decimal_places (text : string) : Z :=
  if Str.contains "." text
  then Z.of_nat (String.length (List.last (Str.split_on "." text) ""%string))
  else 0.

(** The sub-conditions of [is_precision_mismatch], named. *)

(** Case 1: [abs(tx_decimals - att_decimals) > 3 and max(...) > 4] *)
Definition extreme_precision_difference (tx_abs att_abs : float) : bool :=
  let tx_str := float_str tx_abs in
  let att_str := float_str att_abs in
  let tx_decimals := decimal_places tx_str in
  let att_decimals := decimal_places att_str in
  (3 <? Z.abs (tx_decimals - att_decimals)) && (4 <? Z.max tx_decimals att_decimals).

(** [abs(amount_diff - 0.01) < 0.001] *)
Definition one_cent_apart (amount_diff : float) : bool :=
  (abs (amount_diff - 0.01) <? 0.001)%float.

(** [abs((x * 100) % 1) < 0.001] *)
Definition is_round (x : float) : bool :=
  (abs (float_mod_one (x * 100)) <? 0.001)%float.

(** [abs(x % 1) < 0.001] *)
Definition zero_cents (x : float) : bool :=
  (abs (float_mod_one x) <? 0.001)%float.

(** [abs(x % 1 - 0.99) < 0.001] *)
Definition ninety_nine_cents (x : float) : bool :=
  (abs (float_mod_one x - 0.99) <? 0.001)%float.

Definition is_banking_pattern (tx_abs att_abs : float) : bool :=
  (ninety_nine_cents tx_abs && zero_cents att_abs)
  || (ninety_nine_cents att_abs && zero_cents tx_abs).

Definition is_precision_mismatch (tx_abs att_abs amount_diff : float) : bool :=
  if extreme_precision_difference tx_abs att_abs then true
  else if one_cent_apart amount_diff then
    let tx_is_round := is_round tx_abs in
    let att_is_round := is_round att_abs in
    if tx_is_round && att_is_round then
      if negb (is_banking_pattern tx_abs att_abs)
         && (zero_cents tx_abs || zero_cents att_abs)
      then true else false
    else false
  else false.

(** The amount gate: [not (amount_diff > tolerance)]. *)
Definition amounts_match (tx_amount att_amount : float) : bool :=
  let att_abs := abs att_amount in
  let tx_abs := abs tx_amount in
  let amount_diff := abs (att_abs - tx_abs) in
  let tolerance :=
    if is_precision_mismatch tx_abs att_abs amount_diff then 0.002%float
    else 0.011%float in
  negb (tolerance <? amount_diff)%float.

(** ** Match Scorer *)

(** The loop over the attachment's counterparty names: the state is
    [(best_match_score, has_counterparty_match)]. *)
Definition counterparty_step (tx_contact : string) (state : Z * bool)
    (att_counterparty : string) : Z * bool :=
  if _names_match tx_contact att_counterparty then
    let specificity_score := _calculate_name_specificity tx_contact att_counterparty in
    if fst state <? specificity_score then (specificity_score, true) else state
  else state.

Definition counterparty_loop (tx_contact : string) (att_counterparties : list string)
    : Z * bool :=
  fold_left (counterparty_step tx_contact) att_counterparties (0, false).

(** The points of a counterparty match of quality [best_match_score]. *)
Definition match_points (best_match_score : Z) : Z :=
  if 5 <=? best_match_score then 5
  else if 4 <=? best_match_score then 4
  else if 3 <=? best_match_score then 3
  else if 2 <=? best_match_score then 2
  else 1.

(** Part 3 of the scorer, counterparty matching: the points added and the
    flag [has_counterparty_match]. *)
Definition counterparty_score (tx_contact : option string)
    (att_counterparties : list string) : Z * bool :=
  match truthy tx_contact with
  | Some tx_contact =>
      let '(best_match_score, has_counterparty_match) :=
        counterparty_loop tx_contact att_counterparties in
      if has_counterparty_match then (match_points best_match_score, true)
      else (0, false)
  | None =>
      match att_counterparties with
      | _ :: _ => (1, true)
      | nil => (1, true)
      end
  end.

Definition _calculate_match_score (transaction : Tx.t) (attachment : Att.t) : Z * bool :=
  let tx_amount := Tx.amount transaction in
  let tx_date := Tx.date transaction in
  let tx_contact := Tx.contact transaction in
  let att_data := Att.get_data attachment in
  let att_amount := Att.total_amount att_data in
  let att_counterparties := _get_attachment_counterparty_names attachment in
  match att_amount, tx_amount with
  | Some att_amount, Some tx_amount =>
      if negb (amounts_match tx_amount att_amount) then (0, false)
      else
        let score := 3 in
        let score :=
          match truthy tx_date with
          | Some tx_date =>
              if _are_dates_compatible tx_date att_data 15 then score + 2 else score
          | None => score
          end in
        let '(points, has_counterparty_match) :=
          counterparty_score tx_contact att_counterparties in
        (score + points, has_counterparty_match)
  | _, _ => (0, false)
  end.

(** ** Matcher Query Layer *)

(** [l.sort(key=lambda x: x[1], reverse=True)]: a stable sort by
    decreasing score; among equal scores the order of [l] is kept. *)
Fixpoint insert_by_score {A : Type} (x : A * Z) (l : list (A * Z)) : list (A * Z) :=
  match l with
  | nil => x :: nil
  | y :: l' => if snd x <? snd y then y :: insert_by_score x l' else x :: y :: l'
  end.

Fixpoint sort_by_score {A : Type} (l : list (A * Z)) : list (A * Z) :=
  match l with
  | nil => nil
  | x :: l' => insert_by_score x (sort_by_score l')
  end.

(** [ref and _normalize_reference(ref) == ref_norm] for the reference
    [ref] of a candidate. *)
Definition same_reference (ref_norm : string) (ref : option string) : bool :=
  match truthy ref with
  | Some ref => String.eqb (_normalize_reference ref) ref_norm
  | None => false
  end.

(** [candidates[0][0]] after the sort, or [None] without candidates. *)
Definition best_candidate {A : Type} (candidates : list (A * Z)) : option A :=
  match sort_by_score candidates with
  | c :: _ => Some (fst c)
  | nil => None
  end.

(** Priority 1 of [find_attachment], the exact reference match: the first
    attachment of the list with the transaction's reference, or [None]
    when the loop ends (or is not entered). *)
Definition attachment_by_reference (transaction : Tx.t) (attachments : list Att.t)
    : option Att.t :=
  let tx_ref := Tx.reference transaction in
  match truthy tx_ref with
  | Some tx_ref =>
      let tx_ref_norm := _normalize_reference tx_ref in
      List.find
        (fun attachment =>
           let att_ref := Att.reference (Att.get_data attachment) in
           same_reference tx_ref_norm att_ref)
        attachments
  | None => None
  end.

(** Priority 2 of [find_attachment]: the candidates with their scores. *)
Definition attachment_candidates (transaction : Tx.t) (attachments : list Att.t)
    : list (Att.t * Z) :=
  flat_map
    (fun attachment =>
       let '(score, has_counterparty_match) :=
         _calculate_match_score transaction attachment in
       if (5 <=? score) && has_counterparty_match then (attachment, score) :: nil
       else nil)
    attachments.

Definition find_attachment (transaction : Tx.t) (attachments : list Att.t)
    : option Att.t :=
  match attachment_by_reference transaction attachments with
  | Some attachment => Some attachment
  | None => best_candidate (attachment_candidates transaction attachments)
  end.

(** Priority 1 of [find_transaction]. *)
Definition transaction_by_reference (attachment : Att.t) (transactions : list Tx.t)
    : option Tx.t :=
  let att_data := Att.get_data attachment in
  let att_ref := Att.reference att_data in
  match truthy att_ref with
  | Some att_ref =>
      let att_ref_norm := _normalize_reference att_ref in
      List.find
        (fun transaction =>
           let tx_ref := Tx.reference transaction in
           same_reference att_ref_norm tx_ref)
        transactions
  | None => None
  end.

(** Priority 2 of [find_transaction]. *)
Definition transaction_candidates (attachment : Att.t) (transactions : list Tx.t)
    : list (Tx.t * Z) :=
  flat_map
    (fun transaction =>
       let '(score, has_counterparty_match) :=
         _calculate_match_score transaction attachment in
       if (5 <=? score) && has_counterparty_match then (transaction, score) :: nil
       else nil)
    transactions.

Definition find_transaction (attachment : Att.t) (transactions : list Tx.t)
    : option Tx.t :=
  match transaction_by_reference attachment transactions with
  | Some transaction => Some transaction
  | None => best_candidate (transaction_candidates attachment transactions)
  end.

(** ** Notions used in the statements *)

(** A character that is neither whitespace nor changed by [upper]. *)
Definition clean_char (c : ascii) : bool :=
  negb (Str.is_space c) && Ascii.eqb (Str.upper_char c) c.

Definition clean (s : string) : bool := Str.forallb clean_char s.

(** The normalized references that a second normalization changes: [RF]
    alone, and [RF0] in front of more text. *)
Definition rf_gap (n : string) : bool :=
  match n with
  | String "R" (String "F" rest) =>
      match rest with
      | EmptyString => true
      | String "0" (String _ _) => true
      | _ => false
      end
  | _ => false
  end.

(** The normalized reference of a candidate: [_normalize_reference] of
    its reference, which is the empty string for [None] as for the empty
    string. *)
Definition reference_norm (ref : option string) : string :=
  match ref with
  | Some ref => _normalize_reference ref
  | None => ""%string
  end.

(** The score of a candidate attachment, and whether the scored fallback
    keeps it: [score >= 5 and has_counterparty_match]. *)
Definition score_of (transaction : Tx.t) (attachment : Att.t) : Z :=
  fst (_calculate_match_score transaction attachment).

Definition accepted (transaction : Tx.t) (attachment : Att.t) : bool :=
  (5 <=? fst (_calculate_match_score transaction attachment))
  && snd (_calculate_match_score transaction attachment).

(** The same for a candidate transaction. *)
Definition tx_score_of (attachment : Att.t) (transaction : Tx.t) : Z :=
  fst (_calculate_match_score transaction attachment).

Definition tx_accepted (attachment : Att.t) (transaction : Tx.t) : bool :=
  (5 <=? fst (_calculate_match_score transaction attachment))
  && snd (_calculate_match_score transaction attachment).

(** The best specificity among the names that match the contact, 0
    without a match. *)
Definition best_specificity (tx_contact : string) (names : list string) : Z :=
  fold_right
    (fun name best =>
       if _names_match tx_contact name
       then Z.max (_calculate_name_specificity tx_contact name) best
       else best)
    0 names.

(** In [l], [x] is the first element of the highest score [f]: the
    elements before it score less, those after it do not score more. *)
Definition first_best {A : Type} (f : A -> Z) (l : list A) (x : A) : Prop :=
  exists before after : list A,
    l = before ++ x :: after
    /\ (forall y, In y before -> f y < f x)
    /\ (forall y, In y after -> f y <= f x).

(** In [l], [x] is the first element that satisfies [P]. *)
Definition first_such {A : Type} (P : A -> Prop) (l : list A) (x : A) : Prop :=
  exists before after : list A,
    l = before ++ x :: after /\ P x /\ (forall y, In y before -> ~ P y).

Ltac each_char c := destruct c as [[] [] [] [] [] [] [] []].

(** ** Sample records *)

Definition no_reference_data (total : option float) (due : option string)
    (issuer recipient supplier : option string) : Att.Data :=
  Att.mkData total None due None None issuer recipient supplier.

(** A contact and a supplier that share two words of three. *)
Definition tx_overlap : Tx.t :=
  Tx.mk 9101 (Some 100%float) (Some "2024-07-15"%string)
    (Some "Best Supplies EMEA"%string) None.

Definition att_overlap : Att.t :=
  Att.mk 8101
    (Some (no_reference_data (Some 100%float) (Some "2024-07-15"%string)
             None None (Some "Best Supplies Inc"%string))).

(** Two references that are one space each. *)
Definition tx_blank : Tx.t := Tx.mk 9102 None None None (Some " "%string).

Definition att_blank : Att.t :=
  Att.mk 8102 (Some (Att.mkData None (Some " "%string) None None None None None None)).

(** An attachment whose reference is the empty string. *)
Definition att_empty_reference : Att.t :=
  Att.mk 8103 (Some (Att.mkData None (Some ""%string) None None None None None None)).

(** The same reference written in two ways, and amounts and dates far
    apart. *)
Definition tx_rf : Tx.t :=
  Tx.mk 9104 (Some (-10)%float) (Some "2024-01-01"%string) None
    (Some "rf00 0012 34"%string).

Definition att_other : Att.t :=
  Att.mk 8104 (Some (Att.mkData (Some 10%float) (Some "5550001114"%string)
                       (Some "2024-01-02"%string) None None None None None)).

Definition att_rf : Att.t :=
  Att.mk 8105 (Some (Att.mkData (Some 99999%float) (Some "RF1234"%string)
                       (Some "2031-12-31"%string) None None None None None)).

Definition att_rf_again : Att.t :=
  Att.mk 8106 (Some (Att.mkData (Some 10%float) (Some "RF 1234"%string)
                       (Some "2024-01-01"%string) None None None None None)).

(** The duplicate amounts of the edge-case tests, and a second attachment
    with the score of the first. *)
Definition tx_duplicate : Tx.t :=
  Tx.mk 9001 (Some (-175)%float) (Some "2024-06-16"%string)
    (Some "Jane Smith"%string) None.

Definition att_a : Att.t :=
  Att.mk 8001 (Some (no_reference_data (Some 175%float) (Some "2024-07-15"%string)
                       None (Some "Jane Smith"%string) None)).

Definition att_b : Att.t :=
  Att.mk 8002 (Some (no_reference_data (Some 175%float) (Some "2024-07-15"%string)
                       None None (Some "John Doe"%string))).

Definition att_c : Att.t :=
  Att.mk 8003 (Some (no_reference_data (Some 175%float) (Some "2024-07-15"%string)
                       (Some "JANE SMITH"%string) None None)).

Definition tx_duplicate_again : Tx.t :=
  Tx.mk 9002 (Some 175%float) (Some "2024-06-17"%string)
    (Some "jane smith"%string) None.

(** A record with an amount and nothing else. *)
Definition tx_amount_only (amount : float) : Tx.t :=
  Tx.mk 9200 (Some amount) None None None.

Definition att_amount_only (amount : float) : Att.t :=
  Att.mk 8200 (Some (Att.mkData (Some amount) None None None None None None None)).

(** The records of the amount cases of [edge_case_tests.py]: an amount,
    the date 2024-07-15 on both sides ([date] and [due_date]), and no
    contact. *)
Definition tx_amount_dated (amount : float) : Tx.t :=
  Tx.mk 9201 (Some amount) (Some "2024-07-15"%string) None None.

Definition att_amount_dated (amount : float) : Att.t :=
  Att.mk 8201
    (Some (Att.mkData (Some amount) None (Some "2024-07-15"%string)
             None None None None None)).

(** ** Notions used in the statements on amounts *)

(** A difference of 0.005, measured as [is_precision_mismatch] measures a
    difference of 0.01: [abs(amount_diff - 0.005) < 0.001]. *)
Definition half_cent_apart (amount_diff : float) : bool :=
  (abs (amount_diff - 0.005) <? 0.001)%float.

(** The value of a finite float in units of [2^-1074], the smallest
    positive float. *)
Definition sval (f : spec_float) : Z :=
  match f with
  | S754_finite s m e => cond_Zopp s (Zpos m * 2 ^ (e + 1074))
  | _ => 0
  end.

(** ** Notions used in the further properties *)

(** The exact reference match of the two queries, for one transaction
    and one attachment: both references are present and their normalized
    forms are equal. *)
Definition reference_link (transaction : Tx.t) (attachment : Att.t) : bool :=
  match truthy (Tx.reference transaction),
        truthy (Att.reference (Att.get_data attachment)) with
  | Some tx_ref, Some att_ref =>
      String.eqb (_normalize_reference att_ref) (_normalize_reference tx_ref)
  | _, _ => false
  end.

(** The result of a query: the first candidate that [p] holds of, else the
    first of the best score [f] among those that [q] holds of. *)
Definition linked_or_best {A : Type} (p q : A -> bool) (f : A -> Z) (l : list A)
    : option A :=
  match List.find p l with
  | Some a => Some a
  | None => best_candidate (List.map (fun a => (a, f a)) (List.filter q l))
  end.

(** The points of the date in the score, when the amounts match: 2 with a
    compatible date, else 0. *)
Definition date_points (transaction : Tx.t) (attachment : Att.t) : Z :=
  match truthy (Tx.date transaction) with
  | Some tx_date =>
      if _are_dates_compatible tx_date (Att.get_data attachment) 15 then 2 else 0
  | None => 0
  end.

(** A word of a normalized name: not empty, no whitespace, no upper-case
    letter. *)
Definition lower_word (w : string) : bool :=
  negb (Str.is_empty w)
  && Str.forallb (fun c => negb (Str.is_space c) && Ascii.eqb (Str.lower_char c) c) w.

(** * Properties *)

(** ** Reference Normalizer *)

Lemma upper_char_space (c : ascii) : Str.is_space (Str.upper_char c) = Str.is_space c.
Proof. each_char c; reflexivity. Qed.

Lemma upper_char_clean (c : ascii) :
  Str.is_space c = false -> clean_char (Str.upper_char c) = true.
Proof. each_char c; intros H; solve [reflexivity | discriminate H]. Qed.

Lemma strip_leading_zeros_cons (c : ascii) (s : string) :
  strip_leading_zeros (String c s)
  = if Ascii.eqb c "0" then strip_leading_zeros s else String c s.
Proof. each_char c; reflexivity. Qed.

Lemma clean_remove_upper (r : string) : clean (remove_whitespace (Str.upper r)) = true.
Proof.
  induction r as [|c r IH]; [reflexivity|].
  unfold remove_whitespace, Str.upper in *. simpl.
  rewrite upper_char_space.
  destruct (Str.is_space c) eqn:E; simpl; [exact IH|].
  unfold clean in *. simpl. rewrite (upper_char_clean c E). exact IH.
Qed.

Lemma clean_fix (n : string) : clean n = true -> remove_whitespace (Str.upper n) = n.
Proof.
  induction n as [|c n IH]; [reflexivity|].
  unfold clean, remove_whitespace, Str.upper in *. simpl.
  intros H. apply andb_prop in H as [Hc Hn].
  unfold clean_char in Hc. apply andb_prop in Hc as [Hs Hu].
  apply Ascii.eqb_eq in Hu. rewrite Hu.
  apply negb_true_iff in Hs. rewrite Hs. simpl. f_equal. exact (IH Hn).
Qed.

Lemma clean_lstrip (n : string) : clean n = true -> Str.lstrip n = n.
Proof.
  destruct n as [|c n]; [reflexivity|]. unfold clean. simpl.
  intros H. apply andb_prop in H as [Hc _].
  unfold clean_char in Hc. apply andb_prop in Hc as [Hs _].
  apply negb_true_iff in Hs. now rewrite Hs.
Qed.

Lemma clean_rstrip (n : string) : clean n = true -> Str.rstrip n = n.
Proof.
  induction n as [|c n IH]; [reflexivity|]. unfold clean in *. simpl.
  intros H. apply andb_prop in H as [Hc Hn].
  unfold clean_char in Hc. apply andb_prop in Hc as [Hs _].
  apply negb_true_iff in Hs. rewrite Hs, andb_false_r. f_equal. exact (IH Hn).
Qed.

Lemma clean_strip (n : string) : clean n = true -> Str.strip n = n.
Proof. intros H. unfold Str.strip. rewrite (clean_lstrip n H). exact (clean_rstrip n H). Qed.

Lemma clean_strip_leading_zeros (n : string) :
  clean n = true -> clean (strip_leading_zeros n) = true.
Proof.
  induction n as [|c n IH]; [reflexivity|].
  rewrite strip_leading_zeros_cons. intros H.
  destruct (Ascii.eqb c "0"); [|exact H].
  apply IH. unfold clean in H. simpl in H. now apply andb_prop in H as [_ H].
Qed.

Lemma clean_or_zero (n : string) : clean n = true -> clean (or_zero n) = true.
Proof. destruct n; [reflexivity|]. intros H; exact H. Qed.

Lemma or_zero_not_empty (n : string) : Str.is_empty (or_zero n) = false.
Proof. destruct n; reflexivity. Qed.

(** A string that is not all whitespace keeps a character when its
    whitespace is removed. *)
Lemma rstrip_empty (s : string) :
  Str.is_empty (Str.rstrip s) = Str.forallb Str.is_space s.
Proof.
  induction s as [|c s IH]; [reflexivity|]. simpl.
  rewrite IH. destruct (Str.forallb Str.is_space s), (Str.is_space c); reflexivity.
Qed.

Lemma lstrip_all_space (s : string) :
  Str.forallb Str.is_space (Str.lstrip s) = Str.forallb Str.is_space s.
Proof.
  induction s as [|c s IH]; [reflexivity|]. simpl.
  destruct (Str.is_space c) eqn:E; simpl; [exact IH|]. now rewrite E.
Qed.

Lemma strip_empty (s : string) :
  Str.is_empty (Str.strip s) = Str.forallb Str.is_space s.
Proof. unfold Str.strip. rewrite rstrip_empty. apply lstrip_all_space. Qed.

Lemma remove_upper_empty (s : string) :
  Str.is_empty (remove_whitespace (Str.upper s)) = Str.forallb Str.is_space s.
Proof.
  induction s as [|c s IH]; [reflexivity|].
  unfold remove_whitespace, Str.upper in *. simpl. rewrite upper_char_space.
  destruct (Str.is_space c); simpl; [exact IH|reflexivity].
Qed.

(** [_normalize_reference] on a text without whitespace and without
    lower-case letters. *)
Lemma normalize_clean (n : string) :
  clean n = true -> Str.is_empty n = false ->
  _normalize_reference n
  = if Str.startswith "RF" n
    then ("RF" ++ or_zero (strip_leading_zeros (Str.drop 2 n)))%string
    else or_zero (strip_leading_zeros n).
Proof.
  intros Hc Hn. unfold _normalize_reference.
  rewrite (clean_strip n Hc), Hn, (clean_fix n Hc). reflexivity.
Qed.

Lemma startswith_RF (n : string) :
  Str.startswith "RF" n = true -> exists rest, n = String "R" (String "F" rest).
Proof.
  destruct n as [|a [|b rest]]; try discriminate.
  - cbn [Str.startswith]. rewrite andb_false_r. discriminate.
  - cbn [Str.startswith]. intros H.
    apply andb_prop in H as [Ha H]. apply andb_prop in H as [Hb _].
    apply Ascii.eqb_eq in Ha, Hb. subst. now exists rest.
Qed.

Lemma strip_leading_zeros_length (s : string) :
  (String.length (strip_leading_zeros s) <= String.length s)%nat.
Proof.
  induction s as [|c s IH]; [simpl; lia|].
  rewrite strip_leading_zeros_cons. destruct (Ascii.eqb c "0"); simpl in *; lia.
Qed.

Lemma strip_leading_zeros_idem (s : string) :
  strip_leading_zeros (strip_leading_zeros s) = strip_leading_zeros s.
Proof.
  induction s as [|c s IH]; [reflexivity|].
  rewrite strip_leading_zeros_cons. destruct (Ascii.eqb c "0") eqn:E; [exact IH|].
  rewrite strip_leading_zeros_cons, E. reflexivity.
Qed.

Lemma or_zero_strip_idem (s : string) :
  or_zero (strip_leading_zeros (or_zero (strip_leading_zeros s)))
  = or_zero (strip_leading_zeros s).
Proof.
  destruct (strip_leading_zeros s) eqn:E; [reflexivity|].
  change (or_zero (String a s0)) with (String a s0).
  rewrite <- E, strip_leading_zeros_idem, E. reflexivity.
Qed.

(** The number part after [RF] is kept by a second normalization unless
    it is empty, or a zero in front of more text. *)
Lemma number_part_fixed (rest : string) :
  or_zero (strip_leading_zeros rest) = rest
  <-> rf_gap (String "R" (String "F" rest)) = false.
Proof.
  change (rf_gap (String "R" (String "F" rest)))
    with (match rest with
          | EmptyString => true
          | String "0" (String _ _) => true
          | _ => false
          end).
  destruct rest as [|c rest]; [split; discriminate|].
  rewrite strip_leading_zeros_cons.
  destruct (Ascii.eqb c "0") eqn:E.
  - apply Ascii.eqb_eq in E. subst c. destruct rest as [|c' rest]; [split; reflexivity|].
    split; [|discriminate]. intros H. exfalso.
    apply (f_equal String.length) in H.
    pose proof (strip_leading_zeros_length (String c' rest)) as L.
    destruct (strip_leading_zeros (String c' rest)); simpl in *; lia.
  - split; [|reflexivity]. intros _.
    each_char c; solve [reflexivity | discriminate E].
Qed.

Lemma rf_gap_startswith (n : string) :
  Str.startswith "RF" n = false -> rf_gap n = false.
Proof.
  destruct n as [|a [|b rest]]; try reflexivity.
  - intros _. each_char a; reflexivity.
  - cbn [Str.startswith]. rewrite andb_true_r. intros H.
    destruct (Ascii.eqb "R" a) eqn:Ea.
    + apply Ascii.eqb_eq in Ea. subst a. rewrite andb_true_l in H.
      each_char b; solve [reflexivity | discriminate H].
    + each_char a; solve [reflexivity | discriminate Ea].
Qed.

Lemma normalize_fixed (n : string) :
  clean n = true -> Str.is_empty n = false ->
  Str.startswith "RF" n = true \/ or_zero (strip_leading_zeros n) = n ->
  _normalize_reference n = n <-> rf_gap n = false.
Proof.
  intros Hc Hn Hshape. rewrite (normalize_clean n Hc Hn).
  destruct (Str.startswith "RF" n) eqn:E.
  - destruct (startswith_RF n E) as [rest ->].
    change (Str.drop 2 (String "R" (String "F" rest))) with rest.
    rewrite <- number_part_fixed.
    change ("RF" ++ or_zero (strip_leading_zeros rest))%string
      with (String "R" (String "F" (or_zero (strip_leading_zeros rest)))).
    split; [intros H; now injection H|intros H; now rewrite H].
  - destruct Hshape as [H|H]; [discriminate|].
    rewrite H, (rf_gap_startswith n E). split; reflexivity.
Qed.

(** C8, as amended.  A second normalization leaves [_normalize_reference r]
    as it is exactly when that text is neither [RF] alone nor [RF0] in
    front of more text (such texts come out of references with zeros in
    front of the [RF] marker); otherwise it changes it. *)
Theorem normalize_reference_idempotent_iff (r : string) :
  _normalize_reference (_normalize_reference r) = _normalize_reference r
  <-> rf_gap (_normalize_reference r) = false.
Proof.
  destruct (Str.is_empty r || Str.is_empty (Str.strip r)) eqn:Hblank.
  - unfold _normalize_reference at 2 3 4. rewrite Hblank. split; reflexivity.
  - assert (Hs : Str.is_empty (remove_whitespace (Str.upper r)) = false).
    { rewrite remove_upper_empty, <- strip_empty.
      now apply orb_false_iff in Hblank as [_ ->]. }
    pose proof (clean_remove_upper r) as Hc.
    apply normalize_fixed; unfold _normalize_reference; rewrite Hblank;
      set (s := remove_whitespace (Str.upper r)) in *; cbv zeta;
      destruct (Str.startswith "RF" s) eqn:E.
    + destruct (startswith_RF s E) as [rest Hrest]. rewrite Hrest in *.
      change (clean (or_zero (strip_leading_zeros rest)) = true).
      change (clean rest = true) in Hc.
      exact (clean_or_zero _ (clean_strip_leading_zeros _ Hc)).
    + exact (clean_or_zero _ (clean_strip_leading_zeros _ Hc)).
    + reflexivity.
    + apply or_zero_not_empty.
    + left. reflexivity.
    + right. apply or_zero_strip_idem.
Qed.

(** C8 as stated fails: ["0RF001"] normalizes to ["RF001"], and
    ["RF001"] to ["RF1"]. *)
Lemma normalize_reference_not_idempotent :
  ~ (forall r : string,
       _normalize_reference (_normalize_reference r) = _normalize_reference r).
Proof.
  intros H. specialize (H "0RF001"%string). vm_compute in H. discriminate H.
Qed.

(** ** Name Matcher *)

(** C9.  [_names_match] is symmetric: the two names can be exchanged. *)
Theorem names_match_symmetric (a b : string) : _names_match a b = _names_match b a.
Proof.
  unfold _names_match.
  rewrite (orb_comm (Str.is_empty b)).
  destruct (Str.is_empty a || Str.is_empty b); [reflexivity|].
  rewrite (String.eqb_sym (_normalize_name b)).
  destruct (_normalize_name a =? _normalize_name b)%string; [reflexivity|].
  rewrite (orb_comm (Str.contains (_normalize_name b) (_normalize_name a))).
  destruct (Str.contains (_normalize_name a) (_normalize_name b)
            || Str.contains (_normalize_name b) (_normalize_name a)); [reflexivity|].
  cbv zeta.
  set (w1 := list_to_set (Str.split (_normalize_name a)) : gset string).
  set (w2 := list_to_set (Str.split (_normalize_name b)) : gset string).
  rewrite (orb_comm (Nat.eqb (size w2) 0)).
  rewrite (intersection_comm_L w2 w1), (Nat.min_comm (size w2)).
  rewrite (orb_comm (Nat.eqb (size (w2 ∖ (w1 ∩ w2))) 0)).
  rewrite (andb_comm (Nat.eqb (size (w2 ∖ (w1 ∩ w2))) 1)).
  rewrite (orb_comm (bool_decide (Str.lower (first_of (w2 ∖ (w1 ∩ w2))) ∈ suffixes))).
  reflexivity.
Qed.

(** A name that is empty as given matches no name. *)
Lemma names_match_raw_empty (name : string) :
  _names_match "" name = false /\ _names_match name "" = false.
Proof.
  unfold _names_match. cbn [Str.is_empty orb]. now rewrite orb_true_r.
Qed.

(** ** Date Compatibility Checker *)

Lemma dates_loop_true (tx_dt : Date.t) (tolerance_days : Z) (values : list (option string)) :
  dates_loop tx_dt tolerance_days values = true
  <-> exists text att_dt,
        In (Some text) values
        /\ Date.strptime text = Some att_dt
        /\ Z.abs (Date.days_between tx_dt att_dt) <= tolerance_days.
Proof.
  induction values as [|value rest IH].
  - split; [discriminate|]. intros (? & ? & [] & _).
  - cbn [dates_loop]. split.
    + intros H. destruct (truthy value) as [text|] eqn:Et.
      * assert (Hv : value = Some text).
        { destruct value as [s|]; [|discriminate]. cbn in Et.
          destruct (Str.is_empty s); [discriminate|exact Et]. }
        destruct (Date.strptime text) as [att_dt|] eqn:Ep.
        -- destruct (Z.leb_spec (Z.abs (Date.days_between tx_dt att_dt)) tolerance_days) as [Hle|Hgt].
           ++ exists text, att_dt. subst value. split; [now left|]. split; assumption.
           ++ apply IH in H as (t & d & Hin & Hp & Hd). exists t, d. split; [now right|]. now split.
        -- apply IH in H as (t & d & Hin & Hp & Hd). exists t, d. split; [now right|]. now split.
      * apply IH in H as (t & d & Hin & Hp & Hd). exists t, d. split; [now right|]. now split.
    + intros (t & d & [Hin|Hin] & Hp & Hd).
      * subst value. cbn [truthy].
        destruct t as [|c t]; [discriminate Hp|]. cbn [Str.is_empty].
        rewrite Hp. apply Z.leb_le in Hd. now rewrite Hd.
      * assert (Hrest : dates_loop tx_dt tolerance_days rest = true).
        { apply IH. now exists t, d. }
        destruct (truthy value) as [text|]; [|exact Hrest].
        destruct (Date.strptime text) as [att_dt|]; [|exact Hrest].
        destruct (Z.abs (Date.days_between tx_dt att_dt) <=? tolerance_days); [reflexivity|exact Hrest].
Qed.

(** C7.  With the tolerance of 15 days, [_are_dates_compatible] is true
    exactly when the transaction date parses as a date and one of
    [due_date], [invoicing_date], [receiving_date] is present, parses as a
    date, and lies at most 15 days from it.  Hence a field that does not
    parse is passed over, 15 days are accepted and 16 are not, and a
    transaction date that does not parse gives false. *)
Theorem are_dates_compatible_iff (tx_date : string) (att_data : Att.Data) :
  _are_dates_compatible tx_date att_data 15 = true
  <-> exists tx_dt,
        Date.strptime tx_date = Some tx_dt
        /\ exists field text att_dt,
             In field (Att.due_date :: Att.invoicing_date :: Att.receiving_date :: nil)
             /\ field att_data = Some text
             /\ Date.strptime text = Some att_dt
             /\ Z.abs (Date.days_between tx_dt att_dt) <= 15.
Proof.
  unfold _are_dates_compatible, date_fields. split.
  - destruct (Date.strptime tx_date) as [tx_dt|]; [|discriminate].
    intros H. exists tx_dt. split; [reflexivity|].
    apply dates_loop_true in H as (text & att_dt & Hin & Hp & Hd).
    apply in_map_iff in Hin as (field & Hf & Hin).
    now exists field, text, att_dt.
  - intros (tx_dt & -> & field & text & att_dt & Hin & Hf & Hp & Hd).
    apply dates_loop_true. exists text, att_dt. split; [|now split].
    apply in_map_iff. now exists field.
Qed.

(** ** Matcher Query Layer *)

(** *** The sort *)

Lemma insert_by_score_in {A : Type} (x y : A * Z) (l : list (A * Z)) :
  In y (insert_by_score x l) <-> y = x \/ In y l.
Proof.
  induction l as [|z l IH]; cbn [insert_by_score].
  - cbn. intuition congruence.
  - destruct (snd x <? snd z); cbn [In]; [rewrite IH|]; intuition congruence.
Qed.

Lemma sort_by_score_in {A : Type} (y : A * Z) (l : list (A * Z)) :
  In y (sort_by_score l) <-> In y l.
Proof.
  induction l as [|x l IH]; [reflexivity|].
  cbn [sort_by_score]. rewrite insert_by_score_in, IH. cbn. intuition congruence.
Qed.

Lemma sort_by_score_head {A : Type} (l : list (A * Z)) :
  match sort_by_score l with
  | nil => l = nil
  | c :: _ => first_best snd l c
  end.
Proof.
  induction l as [|x l IH]; [reflexivity|].
  cbn [sort_by_score]. destruct (sort_by_score l) as [|c rest].
  - subst l. exists nil, nil. cbn. intuition.
  - destruct IH as (before & after & -> & Hb & Ha). cbn [insert_by_score].
    destruct (Z.ltb_spec (snd x) (snd c)) as [Hlt|Hge].
    + exists (x :: before), after. split; [reflexivity|]. split; [|exact Ha].
      intros y [<-|Hy]; [exact Hlt|now apply Hb].
    + exists nil, (before ++ c :: after). split; [reflexivity|]. split; [intros ? []|].
      intros y Hy. apply in_app_iff in Hy as [Hy|[<-|Hy]].
      * specialize (Hb y Hy). lia.
      * exact Hge.
      * specialize (Ha y Hy). lia.
Qed.

Lemma best_candidate_spec {A : Type} (f : A -> Z) (kept : list A) :
  match best_candidate (List.map (fun a => (a, f a)) kept) with
  | None => kept = nil
  | Some a => first_best f kept a
  end.
Proof.
  unfold best_candidate.
  pose proof (sort_by_score_head (List.map (fun a => (a, f a)) kept)) as H.
  destruct (sort_by_score (List.map (fun a => (a, f a)) kept)) as [|c rest].
  - now apply map_eq_nil in H.
  - destruct H as (before & after & Hl & Hb & Ha).
    apply map_eq_app in Hl as (before' & tl & -> & <- & Htl).
    apply map_eq_cons in Htl as (a & after' & -> & <- & <-).
    exists before', after'. cbn [fst snd] in *. split; [reflexivity|]. split.
    + intros y Hy. apply (Hb (y, f y)). apply in_map_iff. now exists y.
    + intros y Hy. apply (Ha (y, f y)). apply in_map_iff. now exists y.
Qed.

Lemma attachment_candidates_kept (transaction : Tx.t) (attachments : list Att.t) :
  attachment_candidates transaction attachments
  = List.map (fun a => (a, score_of transaction a))
      (List.filter (accepted transaction) attachments).
Proof.
  unfold attachment_candidates, accepted, score_of.
  induction attachments as [|a l IH]; [reflexivity|].
  cbn [flat_map List.filter]. rewrite IH.
  destruct (_calculate_match_score transaction a) as [score has] eqn:E. cbn [fst snd].
  destruct ((5 <=? score) && has); cbn [List.map app]; rewrite ?E; reflexivity.
Qed.

Lemma transaction_candidates_kept (attachment : Att.t) (transactions : list Tx.t) :
  transaction_candidates attachment transactions
  = List.map (fun t => (t, tx_score_of attachment t))
      (List.filter (tx_accepted attachment) transactions).
Proof.
  unfold transaction_candidates, tx_accepted, tx_score_of.
  induction transactions as [|a l IH]; [reflexivity|].
  cbn [flat_map List.filter]. rewrite IH.
  destruct (_calculate_match_score a attachment) as [score has] eqn:E. cbn [fst snd].
  destruct ((5 <=? score) && has); cbn [List.map app]; rewrite ?E; reflexivity.
Qed.

(** C3.  When the reference short-circuit finds nothing, [find_attachment]
    returns, among the attachments of score at least 5 with a compatible
    counterparty, in the order of the list, the first one of the highest
    score, and [None] when there is none; [find_transaction] does the
    same among the transactions. *)
Theorem scored_fallback (transaction : Tx.t) (attachment : Att.t)
    (attachments : list Att.t) (transactions : list Tx.t) :
  (attachment_by_reference transaction attachments = None ->
   match find_attachment transaction attachments with
   | Some a =>
       first_best (score_of transaction)
         (List.filter (accepted transaction) attachments) a
   | None => List.filter (accepted transaction) attachments = nil
   end)
  /\ (transaction_by_reference attachment transactions = None ->
      match find_transaction attachment transactions with
      | Some t =>
          first_best (tx_score_of attachment)
            (List.filter (tx_accepted attachment) transactions) t
      | None => List.filter (tx_accepted attachment) transactions = nil
      end).
Proof.
  split; intros H.
  - unfold find_attachment. rewrite H, attachment_candidates_kept.
    apply best_candidate_spec.
  - unfold find_transaction. rewrite H, transaction_candidates_kept.
    apply best_candidate_spec.
Qed.

(** *** The result is a candidate *)

Lemma best_candidate_in {A : Type} (candidates : list (A * Z)) (a : A) :
  best_candidate candidates = Some a -> In a (List.map fst candidates).
Proof.
  unfold best_candidate. destruct (sort_by_score candidates) as [|c rest] eqn:E; [discriminate|].
  intros [= <-]. apply in_map. apply sort_by_score_in. rewrite E. now left.
Qed.

(** C10.  [find_attachment] returns [None] or one of the attachments it
    was given, [find_transaction] returns [None] or one of the
    transactions it was given. *)
Theorem find_returns_candidate (transaction : Tx.t) (attachment : Att.t)
    (attachments : list Att.t) (transactions : list Tx.t) :
  (find_attachment transaction attachments = None
   \/ exists a, find_attachment transaction attachments = Some a /\ In a attachments)
  /\ (find_transaction attachment transactions = None
      \/ exists t, find_transaction attachment transactions = Some t /\ In t transactions).
Proof.
  split.
  - destruct (find_attachment transaction attachments) as [a|] eqn:E; [right|now left].
    exists a. split; [reflexivity|]. unfold find_attachment in E.
    destruct (attachment_by_reference transaction attachments) as [b|] eqn:Er.
    + injection E as <-. unfold attachment_by_reference in Er.
      destruct (truthy (Tx.reference transaction)); [|discriminate].
      now apply find_some in Er as [Hin _].
    + apply best_candidate_in in E. rewrite attachment_candidates_kept, map_map in E.
      cbn [fst] in E. rewrite map_id in E. now apply filter_In in E as [Hin _].
  - destruct (find_transaction attachment transactions) as [t|] eqn:E; [right|now left].
    exists t. split; [reflexivity|]. unfold find_transaction in E.
    destruct (transaction_by_reference attachment transactions) as [b|] eqn:Er.
    + injection E as <-. unfold transaction_by_reference in Er.
      destruct (truthy (Att.reference (Att.get_data attachment))); [|discriminate].
      now apply find_some in Er as [Hin _].
    + apply best_candidate_in in E. rewrite transaction_candidates_kept, map_map in E.
      cbn [fst] in E. rewrite map_id in E. now apply filter_In in E as [Hin _].
Qed.

(** *** The reference short-circuit *)

Lemma find_first_such {A : Type} (p : A -> bool) (l : list A) :
  (exists x, In x l /\ p x = true) ->
  exists a, List.find p l = Some a /\ first_such (fun x => p x = true) l a.
Proof.
  induction l as [|y l IH]; [intros (x & [] & _)|].
  intros (x & Hin & Hp). cbn [List.find]. destruct (p y) eqn:Ey.
  - exists y. split; [reflexivity|]. exists nil, l. split; [reflexivity|]. split; [exact Ey|intros ? []].
  - destruct IH as (a & Hf & before & after & -> & Ha & Hb).
    { destruct Hin as [->|Hin]; [congruence|]. now exists x. }
    exists a. split; [exact Hf|]. exists (y :: before), after.
    split; [reflexivity|]. split; [exact Ha|].
    intros z [<-|Hz]; [congruence|now apply Hb].
Qed.

Lemma same_reference_norm (ref_norm : string) (ref : option string) :
  ref_norm <> ""%string ->
  same_reference ref_norm ref = true <-> reference_norm ref = ref_norm.
Proof.
  intros Hne. unfold same_reference, reference_norm, truthy.
  destruct ref as [r|]; [|split; [discriminate|congruence]].
  destruct r as [|c r]; cbn [Str.is_empty].
  - split; [discriminate|]. intros H. exfalso. apply Hne. rewrite <- H. reflexivity.
  - apply String.eqb_eq.
Qed.

(** The exact reference match returns a candidate only when both
    references are true values. *)
Lemma reference_match_has_references (transaction : Tx.t) (attachments : list Att.t)
    (a : Att.t) :
  attachment_by_reference transaction attachments = Some a ->
  exists tx_ref att_ref,
    truthy (Tx.reference transaction) = Some tx_ref
    /\ truthy (Att.reference (Att.get_data a)) = Some att_ref
    /\ _normalize_reference att_ref = _normalize_reference tx_ref.
Proof.
  unfold attachment_by_reference.
  destruct (truthy (Tx.reference transaction)) as [tx_ref|]; [|discriminate].
  intros H. apply find_some in H as [_ H]. unfold same_reference in H.
  destruct (truthy (Att.reference (Att.get_data a))) as [att_ref|]; [|discriminate].
  apply String.eqb_eq in H. now exists tx_ref, att_ref.
Qed.

Lemma first_such_iff {A : Type} (P Q : A -> Prop) (l : list A) (x : A) :
  (forall y, P y <-> Q y) -> first_such P l x -> first_such Q l x.
Proof.
  intros H (before & after & -> & Hx & Hb). exists before, after.
  split; [reflexivity|]. split; [now apply H|]. intros y Hy Hq. apply (Hb y Hy). now apply H.
Qed.

(** C2, as amended.  When the reference of the transaction does not
    normalize to the empty string and some attachment of the list has the
    same normalized reference, [find_attachment] returns the first such
    attachment of the list, whatever the amounts, the dates and the scores
    are; the same holds for [find_transaction] and the reference of the
    attachment. *)
Theorem reference_short_circuit :
  (forall (transaction : Tx.t) (attachments : list Att.t) (tx_ref : string),
     Tx.reference transaction = Some tx_ref ->
     _normalize_reference tx_ref <> ""%string ->
     (exists c, In c attachments
                /\ reference_norm (Att.reference (Att.get_data c))
                   = _normalize_reference tx_ref) ->
     exists a,
       find_attachment transaction attachments = Some a
       /\ first_such
            (fun c => reference_norm (Att.reference (Att.get_data c))
                      = _normalize_reference tx_ref)
            attachments a)
  /\ (forall (attachment : Att.t) (transactions : list Tx.t) (att_ref : string),
        Att.reference (Att.get_data attachment) = Some att_ref ->
        _normalize_reference att_ref <> ""%string ->
        (exists c, In c transactions
                   /\ reference_norm (Tx.reference c) = _normalize_reference att_ref) ->
        exists t,
          find_transaction attachment transactions = Some t
          /\ first_such
               (fun c => reference_norm (Tx.reference c) = _normalize_reference att_ref)
               transactions t).
Proof.
  split.
  - intros transaction attachments tx_ref Href Hne (c & Hin & Hc).
    assert (Ht : truthy (Tx.reference transaction) = Some tx_ref).
    { rewrite Href. destruct tx_ref; [now contradiction Hne|reflexivity]. }
    destruct (find_first_such
                (fun a => same_reference (_normalize_reference tx_ref)
                            (Att.reference (Att.get_data a))) attachments)
      as (a & Hf & Hfirst).
    { exists c. split; [exact Hin|]. now apply same_reference_norm. }
    exists a. split.
    + unfold find_attachment, attachment_by_reference. rewrite Ht. cbv zeta. now rewrite Hf.
    + revert Hfirst. apply first_such_iff. intros y. now apply same_reference_norm.
  - intros attachment transactions att_ref Href Hne (c & Hin & Hc).
    assert (Ht : truthy (Att.reference (Att.get_data attachment)) = Some att_ref).
    { rewrite Href. destruct att_ref; [now contradiction Hne|reflexivity]. }
    destruct (find_first_such
                (fun t => same_reference (_normalize_reference att_ref) (Tx.reference t))
                transactions)
      as (t & Hf & Hfirst).
    { exists c. split; [exact Hin|]. now apply same_reference_norm. }
    exists t. split.
    + unfold find_transaction, transaction_by_reference. rewrite Ht. cbv zeta. now rewrite Hf.
    + revert Hfirst. apply first_such_iff. intros y. now apply same_reference_norm.
Qed.

(** ** Match Scorer *)

Lemma specificity_nonneg (a b : string) : 0 <= _calculate_name_specificity a b.
Proof.
  unfold _calculate_name_specificity.
  repeat match goal with |- context [if ?c then _ else _] => destruct c end; lia.
Qed.

Lemma best_specificity_nonneg (tx_contact : string) (names : list string) :
  0 <= best_specificity tx_contact names.
Proof.
  induction names as [|n l IH]; cbn [best_specificity fold_right]; [lia|].
  fold (best_specificity tx_contact l). destruct (_names_match tx_contact n); lia.
Qed.

Lemma counterparty_loop_from (tx_contact : string) (names : list string) :
  forall best : Z, 0 <= best ->
    fold_left (counterparty_step tx_contact) names (best, 0 <? best)
    = (Z.max best (best_specificity tx_contact names),
       0 <? Z.max best (best_specificity tx_contact names)).
Proof.
  induction names as [|n l IH]; intros best Hb.
  - cbn [fold_left best_specificity fold_right]. now rewrite Z.max_l by lia.
  - cbn [fold_left best_specificity fold_right]. fold (best_specificity tx_contact l).
    pose proof (specificity_nonneg tx_contact n) as Hs.
    pose proof (best_specificity_nonneg tx_contact l) as Hl.
    unfold counterparty_step at 2. cbn [fst].
    destruct (_names_match tx_contact n).
    + destruct (Z.ltb_spec best (_calculate_name_specificity tx_contact n)) as [Hlt|Hge].
      * replace true with (0 <? _calculate_name_specificity tx_contact n)
          by (apply Z.ltb_lt; lia).
        rewrite IH by lia. f_equal; [|f_equal]; lia.
      * rewrite IH by lia. f_equal; [|f_equal]; lia.
    + now rewrite IH by lia.
Qed.

(** The loop of the scorer keeps the best specificity of the matching
    names, and sets the flag when that specificity is positive. *)
Lemma counterparty_loop_best (tx_contact : string) (names : list string) :
  counterparty_loop tx_contact names
  = (best_specificity tx_contact names, 0 <? best_specificity tx_contact names).
Proof.
  unfold counterparty_loop.
  pose proof (counterparty_loop_from tx_contact names 0 ltac:(lia)) as H.
  pose proof (best_specificity_nonneg tx_contact names).
  rewrite Z.max_r in H by lia. exact H.
Qed.

(** With a contact, the counterparty is compatible exactly when a name
    matches with a positive specificity; the points are then those of the
    best specificity. *)
Lemma counterparty_score_contact (tx_contact : string) (names : list string) :
  tx_contact <> ""%string ->
  counterparty_score (Some tx_contact) names
  = if 0 <? best_specificity tx_contact names
    then (match_points (best_specificity tx_contact names), true)
    else (0, false).
Proof.
  intros Hne. unfold counterparty_score, truthy.
  destruct tx_contact as [|c s]; [contradiction|]. cbn [Str.is_empty].
  rewrite counterparty_loop_best. reflexivity.
Qed.


(** ** Floats: rounding and order *)

Lemma digits2_bounds (p : positive) :
  2 ^ (Zpos (digits2_pos p) - 1) <= Zpos p < 2 ^ Zpos (digits2_pos p).
Proof.
  induction p as [p IH|p IH|]; cbn [digits2_pos].
  - rewrite Pos2Z.inj_succ.
    replace (Z.succ (Zpos (digits2_pos p)) - 1) with (Z.succ (Zpos (digits2_pos p) - 1)) by lia.
    rewrite !Z.pow_succ_r by lia. lia.
  - rewrite Pos2Z.inj_succ.
    replace (Z.succ (Zpos (digits2_pos p)) - 1) with (Z.succ (Zpos (digits2_pos p) - 1)) by lia.
    rewrite !Z.pow_succ_r by lia. lia.
  - cbn. lia.
Qed.

Lemma shr_1_m (mrs : shr_record) :
  0 <= shr_m mrs -> shr_m (shr_1 mrs) = shr_m mrs / 2.
Proof.
  destruct mrs as [m r s]. cbn [shr_m]. intros Hm.
  destruct m as [|[p|p|]|p]; cbn [shr_1 shr_m]; try reflexivity; try lia.
  - apply Z.div_unique with 1; lia.
  - apply Z.div_unique with 0; lia.
Qed.

Lemma iter_shr_m (n : positive) :
  forall mrs, 0 <= shr_m mrs ->
    shr_m (SpecFloat.iter_pos shr_1 n mrs) = shr_m mrs / 2 ^ Zpos n.
Proof.
  induction n as [n IH|n IH|]; intros mrs Hm; cbn [SpecFloat.iter_pos].
  - assert (H1 : 0 <= shr_m (shr_1 mrs)) by (rewrite shr_1_m by lia; apply Z.div_pos; lia).
    assert (H2 : 0 <= shr_m (SpecFloat.iter_pos shr_1 n (shr_1 mrs)))
      by (rewrite IH by lia; apply Z.div_pos; lia).
    rewrite IH, IH, shr_1_m by lia.
    assert (P : 0 < 2 ^ Zpos n) by (apply Z.pow_pos_nonneg; lia).
    rewrite !Z.div_div by lia. f_equal.
    assert (Hp : Zpos n~1 = Zpos n + Zpos n + 1) by lia.
    rewrite Hp, !Z.pow_add_r, Z.pow_1_r by lia. lia.
  - assert (H2 : 0 <= shr_m (SpecFloat.iter_pos shr_1 n mrs))
      by (rewrite IH by lia; apply Z.div_pos; lia).
    assert (P : 0 < 2 ^ Zpos n) by (apply Z.pow_pos_nonneg; lia).
    rewrite IH, IH by lia. rewrite Z.div_div by lia. f_equal.
    assert (Hp : Zpos n~0 = Zpos n + Zpos n) by lia.
    rewrite Hp, !Z.pow_add_r by lia. lia.
  - rewrite shr_1_m by lia. reflexivity.
Qed.

Lemma iter_xO (m d : positive) : Zpos (Pos.iter xO m d) = Zpos m * 2 ^ Zpos d.
Proof.
  induction d as [|d IH] using Pos.peano_ind.
  - cbn. lia.
  - rewrite Pos.iter_succ, Pos2Z.inj_xO, IH, Pos2Z.inj_succ, Z.pow_succ_r by lia. lia.
Qed.

Lemma shl_align_spec (mx : positive) (ex ex' : Z) :
  snd (shl_align mx ex ex') = Z.min ex ex'
  /\ Zpos (fst (shl_align mx ex ex')) = Zpos mx * 2 ^ (ex - Z.min ex ex').
Proof.
  unfold shl_align. destruct (ex' - ex) as [|d|d] eqn:E; cbn [fst snd].
  - replace (Z.min ex ex') with ex by lia. rewrite Z.sub_diag. cbn. lia.
  - replace (Z.min ex ex') with ex by lia. rewrite Z.sub_diag. cbn. lia.
  - replace (Z.min ex ex') with ex' by lia. split; [reflexivity|].
    rewrite iter_xO. f_equal. f_equal. lia.
Qed.

(** The shift of a positive mantissa by less than its number of digits
    leaves a positive mantissa, at the exponent moved by the shift. *)
Lemma shr_positive (p : positive) (e n : Z) :
  n < Zpos (digits2_pos p) ->
  exists q : positive,
    shr_m (fst (shr (shr_record_of_loc (Zpos p) loc_Exact) e n)) = Zpos q
    /\ snd (shr (shr_record_of_loc (Zpos p) loc_Exact) e n) = e + Z.max n 0.
Proof.
  intros Hn. unfold shr. destruct n as [|n|n]; cbn [fst snd shr_record_of_loc shr_m].
  - exists p. split; [reflexivity|lia].
  - rewrite iter_shr_m by (cbn; lia). cbn [shr_m].
    assert (H : 0 < Zpos p / 2 ^ Zpos n).
    { apply Z.div_str_pos. split; [apply Z.pow_pos_nonneg; lia|].
      pose proof (digits2_bounds p) as [Hlo _].
      apply Z.le_trans with (2 ^ (Zpos (digits2_pos p) - 1)); [|exact Hlo].
      apply Z.pow_le_mono_r; lia. }
    destruct (Zpos p / 2 ^ Zpos n) as [|q|q]; try lia.
    exists q. split; [reflexivity|lia].
  - exists p. split; [reflexivity|lia].
Qed.

Lemma round_nearest_even_positive (q : positive) (l : location) :
  exists q', round_nearest_even (Zpos q) l = Zpos q'.
Proof.
  unfold round_nearest_even. destruct l as [|[]]; try (now exists q).
  - destruct (Z.even (Zpos q)); [now exists q|]. now exists (q + 1)%positive.
  - now exists (q + 1)%positive.
Qed.

(** Rounding does not go below the binade of the value: the result of
    rounding [p * 2^e], a value of at least [2^k], has an exponent of
    [k - 52] at least. *)
Lemma binary_round_aux_exponent (s : bool) (p : positive) (e k : Z) :
  -1074 <= k -> k < Zpos (digits2_pos p) + e ->
  e <= fexp prec emax (Zpos (digits2_pos p) + e) ->
  match binary_round_aux prec emax s (Zpos p) e loc_Exact with
  | S754_finite _ _ e' => k - 52 <= e'
  | S754_infinity _ => True
  | _ => False
  end.
Proof.
  intros Hk Hd He. unfold binary_round_aux, shr_fexp.
  change (Zdigits2 (Zpos p)) with (Zpos (digits2_pos p)).
  set (D := Zpos (digits2_pos p) + e) in *.
  assert (HD : fexp prec emax D = Z.max (D - 53) (-1074)) by reflexivity.
  destruct (shr_positive p e (fexp prec emax D - e)) as (q & Hq & He').
  { rewrite HD. lia. }
  destruct (shr (shr_record_of_loc (Zpos p) loc_Exact) e (fexp prec emax D - e))
    as [mrs' e'] eqn:E1. cbn [fst snd] in Hq, He'.
  rewrite Hq. destruct (round_nearest_even_positive q (loc_of_shr_record mrs')) as (q' & ->).
  change (Zdigits2 (Zpos q')) with (Zpos (digits2_pos q')).
  assert (HD' : fexp prec emax (Zpos (digits2_pos q') + e')
                = Z.max (Zpos (digits2_pos q') + e' - 53) (-1074)) by reflexivity.
  destruct (shr_positive q' e' (fexp prec emax (Zpos (digits2_pos q') + e') - e'))
    as (q'' & Hq'' & He'').
  { rewrite HD'. lia. }
  destruct (shr (shr_record_of_loc (Zpos q') loc_Exact) e'
              (fexp prec emax (Zpos (digits2_pos q') + e') - e')) as [mrs'' e''] eqn:E2.
  cbn [fst snd] in Hq'', He''. rewrite Hq''.
  destruct (e'' <=? emax - prec); [|exact I]. rewrite HD in *. lia.
Qed.

Lemma digits2_shift (m : positive) (d : Z) :
  0 <= d -> forall q, Zpos q = Zpos m * 2 ^ d ->
  Zpos (digits2_pos q) = Zpos (digits2_pos m) + d.
Proof.
  intros Hd q Hq.
  pose proof (digits2_bounds m) as [Hlo Hhi].
  pose proof (digits2_bounds q) as [Hlo' Hhi'].
  rewrite Hq in Hlo', Hhi'.
  assert (P : 0 < 2 ^ d) by (apply Z.pow_pos_nonneg; lia).
  destruct (Z.lt_trichotomy (Zpos (digits2_pos q)) (Zpos (digits2_pos m) + d)) as [H|[H|H]];
    [exfalso|exact H|exfalso].
  - assert (2 ^ Zpos (digits2_pos q) <= 2 ^ (Zpos (digits2_pos m) - 1 + d))
      by (apply Z.pow_le_mono_r; lia).
    rewrite Z.pow_add_r in H0 by lia. nia.
  - assert (2 ^ (Zpos (digits2_pos m) + d) <= 2 ^ (Zpos (digits2_pos q) - 1))
      by (apply Z.pow_le_mono_r; lia).
    rewrite Z.pow_add_r in H0 by lia. nia.
Qed.

Lemma binary_round_exponent (s : bool) (p : positive) (e k : Z) :
  -1074 <= k -> k < Zpos (digits2_pos p) + e ->
  match binary_round prec emax s p e with
  | S754_finite _ _ e' => k - 52 <= e'
  | S754_infinity _ => True
  | _ => False
  end.
Proof.
  intros Hk Hd. unfold binary_round.
  pose proof (shl_align_spec p e (fexp prec emax (Zpos (digits2_pos p) + e))) as [He Hm].
  destruct (shl_align p e (fexp prec emax (Zpos (digits2_pos p) + e))) as [mz ez].
  cbn [fst snd] in He, Hm.
  rewrite <- He in Hm.
  assert (Hdig : Zpos (digits2_pos mz) + ez = Zpos (digits2_pos p) + e).
  { assert (H0 : 0 <= e - ez) by lia.
    rewrite (digits2_shift p (e - ez) H0 mz Hm). lia. }
  apply binary_round_aux_exponent; rewrite ?Hdig; try assumption. lia.
Qed.

Lemma valid_finite (s : bool) (m : positive) (e : Z) :
  valid_binary (S754_finite s m e) = true ->
  -1074 <= e /\ Zpos (digits2_pos m) <= 53 /\ (-1074 < e -> Zpos (digits2_pos m) = 53).
Proof.
  cbn [valid_binary]. unfold bounded, canonical_mantissa. intros H.
  apply andb_prop in H as [H _]. apply Z.eqb_eq in H.
  change (fexp prec emax (Zpos (digits2_pos m) + e))
    with (Z.max (Zpos (digits2_pos m) + e - 53) (-1074)) in H. lia.
Qed.

(** On valid positive floats the order of the floats is the order of
    their values. *)
Lemma compare_valid (ma mb : positive) (ea eb : Z) :
  valid_binary (S754_finite false ma ea) = true ->
  valid_binary (S754_finite false mb eb) = true ->
  SFcompare (S754_finite false ma ea) (S754_finite false mb eb)
  = Some (sval (S754_finite false ma ea) ?= sval (S754_finite false mb eb)).
Proof.
  intros Va Vb.
  apply valid_finite in Va as (Ha & Hda & Hna), Vb as (Hb & Hdb & Hnb).
  pose proof (digits2_bounds ma) as [Hla Hua].
  pose proof (digits2_bounds mb) as [Hlb Hub].
  cbn [SFcompare sval cond_Zopp]. f_equal.
  assert (Hmono : forall x y, 0 <= x <= y -> 2 ^ x <= 2 ^ y)
    by (intros; apply Z.pow_le_mono_r; lia).
  destruct (Z.compare_spec ea eb) as [->|Hlt|Hgt].
  - assert (P : 0 < 2 ^ (eb + 1074)) by (apply Z.pow_pos_nonneg; lia).
    rewrite <- Zmult_compare_compat_r by lia. reflexivity.
  - symmetry. apply Z.compare_lt_iff.
    rewrite (Hnb ltac:(lia)) in Hlb. change (2 ^ (53 - 1)) with (2 ^ 52) in Hlb.
    assert (Hua' : Zpos ma < 2 ^ 53).
    { apply Z.lt_le_trans with (2 ^ Zpos (digits2_pos ma)); [exact Hua|]. apply Hmono. lia. }
    assert (P : 0 < 2 ^ (ea + 1074)) by (apply Z.pow_pos_nonneg; lia).
    assert (Hstep : 2 ^ 53 * 2 ^ (ea + 1074) <= 2 ^ 52 * 2 ^ (eb + 1074)).
    { rewrite <- !Z.pow_add_r by lia. apply Hmono. lia. }
    nia.
  - symmetry. apply Z.compare_gt_iff.
    rewrite (Hna ltac:(lia)) in Hla. change (2 ^ (53 - 1)) with (2 ^ 52) in Hla.
    assert (Hub' : Zpos mb < 2 ^ 53).
    { apply Z.lt_le_trans with (2 ^ Zpos (digits2_pos mb)); [exact Hub|]. apply Hmono. lia. }
    assert (P : 0 < 2 ^ (eb + 1074)) by (apply Z.pow_pos_nonneg; lia).
    assert (Hstep : 2 ^ 53 * 2 ^ (eb + 1074) <= 2 ^ 52 * 2 ^ (ea + 1074)).
    { rewrite <- !Z.pow_add_r by lia. apply Hmono. lia. }
    nia.
Qed.

(** The value of a difference, before rounding. *)
Lemma sub_value (sx : bool) (mx mc : positive) (ex ec : Z) :
  -1074 <= ex -> -1074 <= ec ->
  sval (S754_finite sx mx ex) - sval (S754_finite false mc ec)
  = (cond_Zopp sx (Zpos (fst (shl_align mx ex (Z.min ex ec))))
     - cond_Zopp false (Zpos (fst (shl_align mc ec (Z.min ex ec)))))
    * 2 ^ (Z.min ex ec + 1074).
Proof.
  intros Hx Hc.
  pose proof (shl_align_spec mx ex (Z.min ex ec)) as [_ Hmx].
  pose proof (shl_align_spec mc ec (Z.min ex ec)) as [_ Hmc].
  replace (Z.min ex (Z.min ex ec)) with (Z.min ex ec) in Hmx by lia.
  replace (Z.min ec (Z.min ex ec)) with (Z.min ex ec) in Hmc by lia.
  rewrite Hmx, Hmc. cbn [sval].
  assert (Ex : 2 ^ (ex + 1074) = 2 ^ (ex - Z.min ex ec) * 2 ^ (Z.min ex ec + 1074)).
  { rewrite <- Z.pow_add_r by lia. f_equal. lia. }
  assert (Ec : 2 ^ (ec + 1074) = 2 ^ (ec - Z.min ex ec) * 2 ^ (Z.min ex ec + 1074)).
  { rewrite <- Z.pow_add_r by lia. f_equal. lia. }
  rewrite Ex, Ec. destruct sx; cbn [cond_Zopp]; ring.
Qed.

(** A difference of at least [2^k] does not round below [2^k]: it is not
    less than a float of a smaller exponent. *)
Lemma sub_far (sx : bool) (mx mc mK : positive) (ex ec eK k : Z) :
  -1074 <= ex -> -1074 <= ec -> -1074 <= k -> eK < k - 52 ->
  2 ^ (k + 1074)
  <= Z.abs (sval (S754_finite sx mx ex) - sval (S754_finite false mc ec)) ->
  SFltb (SFabs (SF64sub (S754_finite sx mx ex) (S754_finite false mc ec)))
        (S754_finite false mK eK) = false.
Proof.
  intros Hx Hc Hk HK Hfar. rewrite sub_value in Hfar by assumption.
  unfold SF64sub. cbn [SFsub].
  set (z := cond_Zopp sx (Zpos (fst (shl_align mx ex (Z.min ex ec))))
            - cond_Zopp false (Zpos (fst (shl_align mc ec (Z.min ex ec))))) in *.
  set (ez := Z.min ex ec) in *.
  assert (P : 0 < 2 ^ (ez + 1074)) by (apply Z.pow_pos_nonneg; lia).
  assert (Pk : 0 < 2 ^ (k + 1074)) by (apply Z.pow_pos_nonneg; lia).
  rewrite Z.abs_mul, (Z.abs_eq (2 ^ (ez + 1074))) in Hfar by lia.
  assert (Hround : forall (s : bool) (p : positive), Z.abs z = Zpos p ->
            SFltb (SFabs (binary_round prec emax s p ez)) (S754_finite false mK eK) = false).
  { intros s p Hp. rewrite Hp in Hfar.
    pose proof (digits2_bounds p) as [_ Hup].
    assert (Hdig : k < Zpos (digits2_pos p) + ez).
    { apply Z.nle_gt. intros Hle.
      assert (2 ^ (Zpos (digits2_pos p) + (ez + 1074)) <= 2 ^ (k + 1074))
        by (apply Z.pow_le_mono_r; lia).
      rewrite Z.pow_add_r in H by lia. nia. }
    pose proof (binary_round_exponent s p ez k Hk Hdig) as Hr.
    destruct (binary_round prec emax s p ez) as [| |  |s' m' e']; try contradiction.
    - reflexivity.
    - cbn [SFabs]. unfold SFltb. cbn [SFcompare].
      destruct (Z.compare_spec e' eK); [lia|lia|reflexivity]. }
  unfold binary_normalize. destruct z as [|p|p].
  - cbn in Hfar. lia.
  - now apply Hround.
  - now apply Hround.
Qed.

(** So a difference that rounds below a float of exponent [eK] is a
    difference of less than [2^k], for [k] above [eK + 52]. *)
Lemma sub_near (D : spec_float) (mc mK : positive) (ec eK k : Z) :
  valid_binary D = true ->
  -1074 <= ec -> -1074 <= k -> eK < k - 52 ->
  SFltb (S754_finite false mc ec) (S754_finite false mK eK) = false ->
  SFltb (SFabs (SF64sub D (S754_finite false mc ec))) (S754_finite false mK eK) = true ->
  (exists s m e, D = S754_finite s m e)
  /\ Z.abs (sval D - sval (S754_finite false mc ec)) < 2 ^ (k + 1074).
Proof.
  intros V Hc Hk HK Hconst H. destruct D as [s|s| |s m e].
  - exfalso. unfold SF64sub in H. cbn [SFsub SFabs negb] in H. congruence.
  - exfalso. unfold SF64sub in H. cbn [SFsub SFabs] in H. discriminate H.
  - exfalso. discriminate H.
  - split; [now exists s, m, e|]. apply Z.nle_gt. intros Hfar.
    apply valid_finite in V as (He & _).
    rewrite (sub_far s m mc mK e ec eK k He Hc Hk HK Hfar) in H. discriminate H.
Qed.

(** ** Amount Comparator *)

Lemma one_cent_apart_spec (d : float) :
  one_cent_apart d
  = SFltb (SFabs (SF64sub (Prim2SF d) (S754_finite false 5764607523034235 (-59))))
          (S754_finite false 4611686018427388 (-62)).
Proof.
  unfold one_cent_apart. rewrite FloatAxioms.ltb_spec, FloatAxioms.abs_spec, FloatAxioms.sub_spec. reflexivity.
Qed.

Lemma half_cent_apart_spec (d : float) :
  half_cent_apart d
  = SFltb (SFabs (SF64sub (Prim2SF d) (S754_finite false 5764607523034235 (-60))))
          (S754_finite false 4611686018427388 (-62)).
Proof.
  unfold half_cent_apart. rewrite FloatAxioms.ltb_spec, FloatAxioms.abs_spec, FloatAxioms.sub_spec. reflexivity.
Qed.

(** A difference within 0.001 of 0.01 is above the strict tolerance. *)
Lemma one_cent_above_tolerance (d : float) :
  one_cent_apart d = true -> (0.002 <? d)%float = true.
Proof.
  rewrite one_cent_apart_spec, FloatAxioms.ltb_spec. intros H.
  pose proof (Prim2SF_valid d) as V.
  apply (sub_near _ _ _ _ _ (-9)) in H as ((s & m & e & HD) & Hnear);
    [|exact V|lia|lia|lia|reflexivity].
  rewrite HD in *. clear HD.
  pose proof (valid_finite s m e V) as (He & _).
  assert (P : 0 < 2 ^ (e + 1074)) by (apply Z.pow_pos_nonneg; lia).
  change (Prim2SF 0.002) with (S754_finite false 4611686018427388 (-61)).
  destruct s.
  - exfalso. cbn [sval cond_Zopp] in Hnear.
    change (2 ^ (-59 + 1074)) with (2 ^ 1015) in Hnear.
    change (2 ^ (-9 + 1074)) with (2 ^ 1065) in Hnear.
    assert (2 ^ 1065 < 5764607523034235 * 2 ^ 1015)
      by (change (2 ^ 1065) with (2 ^ 50 * 2 ^ 1015); apply Z.mul_lt_mono_pos_r; [now apply Z.pow_pos_nonneg|reflexivity]).
    lia.
  - unfold SFltb. rewrite compare_valid by (exact V || reflexivity).
    assert (Hlt : sval (S754_finite false 4611686018427388 (-61)) < sval (S754_finite false m e)).
    { cbn [sval cond_Zopp] in *.
      change (2 ^ (-59 + 1074)) with (2 ^ 1015) in Hnear.
      change (2 ^ (-9 + 1074)) with (2 ^ 50 * 2 ^ 1015) in Hnear.
      change (2 ^ (-61 + 1074)) with (2 ^ 1013).
      change (2 ^ 1015) with (4 * 2 ^ 1013) in Hnear.
      assert (Q : 0 < 2 ^ 1013) by now apply Z.pow_pos_nonneg.
      change (2 ^ 50) with 1125899906842624 in Hnear. lia. }
    apply Z.compare_lt_iff in Hlt. now rewrite Hlt.
Qed.

(** A difference within 0.001 of 0.005 is not within 0.001 of 0.01, and
    is not above the lenient tolerance. *)
Lemma half_cent_within_tolerance (d : float) :
  half_cent_apart d = true ->
  one_cent_apart d = false /\ (0.011 <? d)%float = false.
Proof.
  rewrite half_cent_apart_spec, one_cent_apart_spec, FloatAxioms.ltb_spec. intros H.
  pose proof (Prim2SF_valid d) as V.
  apply (sub_near _ _ _ _ _ (-9)) in H as ((s & m & e & HD) & Hnear);
    [|exact V|lia|lia|lia|reflexivity].
  rewrite HD in *. clear HD.
  pose proof (valid_finite s m e V) as (He & _).
  assert (P : 0 < 2 ^ (e + 1074)) by (apply Z.pow_pos_nonneg; lia).
  assert (Q : 0 < 2 ^ 1012) by now apply Z.pow_pos_nonneg.
  change (Prim2SF 0.011) with (S754_finite false 6341068275337658 (-59)).
  cbn [sval cond_Zopp] in Hnear.
  change (2 ^ (-60 + 1074)) with (4 * 2 ^ 1012) in Hnear.
  change (2 ^ (-9 + 1074)) with (9007199254740992 * 2 ^ 1012) in Hnear.
  split.
  - apply sub_far with (k := -9); try lia.
    cbn [sval cond_Zopp].
    change (2 ^ (-59 + 1074)) with (8 * 2 ^ 1012).
    change (2 ^ (-9 + 1074)) with (9007199254740992 * 2 ^ 1012).
    destruct s; cbn [cond_Zopp] in *; lia.
  - destruct s; [reflexivity|].
    unfold SFltb. rewrite compare_valid by (exact V || reflexivity).
    assert (Hge : sval (S754_finite false m e) < sval (S754_finite false 6341068275337658 (-59))).
    { cbn [sval cond_Zopp] in *. change (2 ^ (-59 + 1074)) with (8 * 2 ^ 1012). lia. }
    apply Z.compare_gt_iff in Hge. now rewrite Hge.
Qed.

(** *** The amount gate *)

Lemma counterparty_points_nonneg (tx_contact : option string) (names : list string) :
  0 <= fst (counterparty_score tx_contact names).
Proof.
  unfold counterparty_score. destruct (truthy tx_contact) as [c|].
  - destruct (counterparty_loop c names) as [best has]. destruct has; cbn [fst]; [|lia].
    unfold match_points. repeat match goal with |- context [if ?b then _ else _] => destruct b end; lia.
  - destruct names; cbn; lia.
Qed.

Lemma score_rejected (transaction : Tx.t) (attachment : Att.t) (tx_amount att_amount : float) :
  Tx.amount transaction = Some tx_amount ->
  Att.total_amount (Att.get_data attachment) = Some att_amount ->
  amounts_match tx_amount att_amount = false ->
  _calculate_match_score transaction attachment = (0, false).
Proof.
  intros Ht Ha Hm. unfold _calculate_match_score. rewrite Ht, Ha, Hm. reflexivity.
Qed.

Lemma score_accepted (transaction : Tx.t) (attachment : Att.t) (tx_amount att_amount : float) :
  Tx.amount transaction = Some tx_amount ->
  Att.total_amount (Att.get_data attachment) = Some att_amount ->
  amounts_match tx_amount att_amount = true ->
  3 <= fst (_calculate_match_score transaction attachment).
Proof.
  intros Ht Ha Hm. unfold _calculate_match_score. rewrite Ht, Ha, Hm. cbn [negb].
  pose proof (counterparty_points_nonneg (Tx.contact transaction)
                (_get_attachment_counterparty_names attachment)) as Hp.
  destruct (counterparty_score (Tx.contact transaction)
              (_get_attachment_counterparty_names attachment)) as [points has].
  cbn [fst] in *.
  destruct (truthy (Tx.date transaction)) as [tx_date|]; [|lia].
  destruct (_are_dates_compatible tx_date (Att.get_data attachment) 15); lia.
Qed.

(** The two branches of the gate, read off the tests of the code.  Take
    a transaction and an attachment with amounts.  If the difference of
    the two magnitudes is within 0.001 of 0.01, both magnitudes pass the
    round-cent test of the code ([abs((x * 100) % 1) < 0.001]), they are
    not the X.99 / (X+1).00 pattern, and one of them has no cents
    ([abs(x % 1) < 0.001]), the score is 0.  If the difference is within
    0.001 of 0.005 and the numbers of decimals of the two magnitudes are
    not far apart (more than 3 apart, the larger above 4), the amounts
    match and the score is at least 3.  Whether an amount passes the
    round-cent test is a matter of its float, and not every whole-cent
    amount does. *)
Lemma amount_gate (transaction : Tx.t) (attachment : Att.t) (tx_amount att_amount : float) :
  Tx.amount transaction = Some tx_amount ->
  Att.total_amount (Att.get_data attachment) = Some att_amount ->
  let tx_abs := abs tx_amount in
  let att_abs := abs att_amount in
  let amount_diff := abs (att_abs - tx_abs)%float in
  (one_cent_apart amount_diff = true ->
   is_round tx_abs = true -> is_round att_abs = true ->
   is_banking_pattern tx_abs att_abs = false ->
   zero_cents tx_abs || zero_cents att_abs = true ->
   _calculate_match_score transaction attachment = (0, false))
  /\ (half_cent_apart amount_diff = true ->
      extreme_precision_difference tx_abs att_abs = false ->
      amounts_match tx_amount att_amount = true
      /\ 3 <= fst (_calculate_match_score transaction attachment)).
Proof.
  intros Ht Ha tx_abs att_abs amount_diff. split.
  - intros Hcent Hrt Hra Hbank Hzero.
    apply (score_rejected _ _ _ _ Ht Ha). unfold amounts_match.
    fold tx_abs att_abs amount_diff.
    assert (Hflag : is_precision_mismatch tx_abs att_abs amount_diff = true).
    { unfold is_precision_mismatch.
      destruct (extreme_precision_difference tx_abs att_abs); [reflexivity|].
      now rewrite Hcent, Hrt, Hra, Hbank, Hzero. }
    rewrite Hflag, (one_cent_above_tolerance _ Hcent). reflexivity.
  - intros Hhalf Hextreme.
    destruct (half_cent_within_tolerance _ Hhalf) as [Hcent Htol].
    assert (Hm : amounts_match tx_amount att_amount = true).
    { unfold amounts_match. fold tx_abs att_abs amount_diff.
      unfold is_precision_mismatch. now rewrite Hextreme, Hcent, Htol. }
    split; [exact Hm|]. exact (score_accepted _ _ _ _ Ht Ha Hm).
Qed.

Lemma amount_gate_witness :
  _calculate_match_score (tx_amount_only 200) (att_amount_only 200.01) = (0, false)
  /\ 3 <= fst (_calculate_match_score (tx_amount_only (-50)) (att_amount_only 50.005)).
Proof.
  split.
  - apply (proj1 (amount_gate (tx_amount_only 200) (att_amount_only 200.01) 200 200.01
                    eq_refl eq_refl)); vm_compute; reflexivity.
  - apply (proj2 (amount_gate (tx_amount_only (-50)) (att_amount_only 50.005) (-50) 50.005
                    eq_refl eq_refl)); vm_compute; reflexivity.
Defined.

(** The guard [abs(tx_abs % 1) < 0.001 or abs(att_abs % 1) < 0.001] of
    the code: 5.25 and 5.26 are round, one cent apart and no
    X.99 / (X+1).00 pattern, and the pair is not rejected, since neither
    amount is without cents. *)
Lemma one_cent_between_cents :
  ~ (forall (transaction : Tx.t) (attachment : Att.t) (tx_amount att_amount : float),
       Tx.amount transaction = Some tx_amount ->
       Att.total_amount (Att.get_data attachment) = Some att_amount ->
       one_cent_apart (abs (abs att_amount - abs tx_amount)) = true ->
       is_round (abs tx_amount) = true -> is_round (abs att_amount) = true ->
       is_banking_pattern (abs tx_amount) (abs att_amount) = false ->
       _calculate_match_score transaction attachment = (0, false)).
Proof.
  intros H.
  specialize (H (tx_amount_only 5.25) (att_amount_only 5.26) 5.25 5.26 eq_refl eq_refl)%float.
  vm_compute in H. specialize (H eq_refl eq_refl eq_refl eq_refl). discriminate H.
Qed.

(** C4.  The code does not reject the pair 2.00 and 2.01, which the claim
    rejects: the two are whole-cent amounts, one cent apart, not the
    X.99 / (X+1).00 pattern, and 2.00 has no cents.  The score is 4 for
    the amounts alone and 6 in the records of the amount cases of
    [edge_case_tests.py], where the same records with 200.00 and 200.01
    score 0, as that test expects.  The cause is the round-cent test
    [abs((x * 100) % 1) < 0.001], whose comment says that the tolerance
    handles floating-point precision: the product [2.01 * 100] is
    [200.99999999999997], its remainder [0.9999999999999716] is just below
    1 and not near 0, and 2.01 does not count as round; every other test
    of the rejection holds of the pair. *)
Theorem whole_cent_amounts_one_cent_apart_accepted :
  _calculate_match_score (tx_amount_only 2) (att_amount_only 2.01) = (4, true)
  /\ _calculate_match_score (tx_amount_dated 2) (att_amount_dated 2.01) = (6, true)
  /\ _calculate_match_score (tx_amount_dated 200) (att_amount_dated 200.01) = (0, false)
  /\ extreme_precision_difference 2 2.01 = false
  /\ one_cent_apart (abs (2.01 - 2)) = true
  /\ is_round 2 = true
  /\ is_banking_pattern 2 2.01 = false
  /\ zero_cents 2 = true
  /\ is_round 2.01 = false
  /\ float_str (2.01 * 100) = "200.99999999999997"%string
  /\ float_str (float_mod_one (2.01 * 100)) = "0.9999999999999716"%string.
Proof. vm_compute. repeat split; reflexivity. Qed.

(** ** The query layer and the scorer at concrete inputs *)

(** C2 as stated fails: a reference of one space is not empty and
    normalizes to the empty string, as the empty reference of the
    attachment does, and the attachment is not returned. *)
Lemma reference_short_circuit_blank :
  ~ (forall (transaction : Tx.t) (attachments : list Att.t) (tx_ref : string),
       Tx.reference transaction = Some tx_ref ->
       tx_ref <> ""%string ->
       (exists c, In c attachments
                  /\ reference_norm (Att.reference (Att.get_data c))
                     = _normalize_reference tx_ref) ->
       exists a,
         find_attachment transaction attachments = Some a
         /\ first_such
              (fun c => reference_norm (Att.reference (Att.get_data c))
                        = _normalize_reference tx_ref)
              attachments a).
Proof.
  intros H.
  destruct (H tx_blank (att_empty_reference :: nil) " "%string) as (a & Hfind & _).
  - reflexivity.
  - discriminate.
  - exists att_empty_reference. split; [now left|reflexivity].
  - vm_compute in Hfind. discriminate Hfind.
Qed.

Lemma reference_short_circuit_witness :
  find_attachment tx_rf (att_other :: att_rf :: att_rf_again :: nil) = Some att_rf
  /\ find_transaction att_rf_again (tx_duplicate :: tx_rf :: nil) = Some tx_rf.
Proof.
  split.
  - destruct (proj1 reference_short_circuit tx_rf
                (att_other :: att_rf :: att_rf_again :: nil) "rf00 0012 34"%string)
      as (a & Hfind & before & after & Hl & Ha & Hb).
    + reflexivity.
    + vm_compute. discriminate.
    + exists att_rf. split; [right; now left|reflexivity].
    + rewrite Hfind. f_equal.
      destruct before as [|b0 [|b1 before]].
      * injection Hl as <- _. exfalso. vm_compute in Ha. discriminate Ha.
      * now injection Hl as _ <- _.
      * injection Hl as <- <- Hl. exfalso. apply (Hb att_rf); [right; now left|reflexivity].
  - destruct (proj2 reference_short_circuit att_rf_again
                (tx_duplicate :: tx_rf :: nil) "RF 1234"%string)
      as (t & Hfind & before & after & Hl & Ha & Hb).
    + reflexivity.
    + vm_compute. discriminate.
    + exists tx_rf. split; [right; now left|reflexivity].
    + rewrite Hfind. f_equal.
      destruct before as [|b0 [|b1 before]].
      * injection Hl as <- _. exfalso. vm_compute in Ha. discriminate Ha.
      * now injection Hl as _ <- _.
      * injection Hl as _ _ Hl. destruct before; discriminate Hl.
Defined.

Lemma scored_fallback_witness :
  attachment_by_reference tx_duplicate (att_b :: att_a :: att_c :: nil) = None
  /\ find_attachment tx_duplicate (att_b :: att_a :: att_c :: nil) = Some att_a
  /\ first_best (score_of tx_duplicate)
       (List.filter (accepted tx_duplicate) (att_b :: att_a :: att_c :: nil)) att_a.
Proof.
  assert (Hfind : find_attachment tx_duplicate (att_b :: att_a :: att_c :: nil) = Some att_a)
    by (vm_compute; reflexivity).
  split; [reflexivity|]. split; [exact Hfind|].
  pose proof (proj1 (scored_fallback tx_duplicate att_a (att_b :: att_a :: att_c :: nil) nil)
                eq_refl) as H.
  rewrite Hfind in H. exact H.
Defined.


(** C1, at a failing input.  The contact and the supplier match by their
    common words; the specificity of the match is 0, and no points are
    added and the counterparty is not compatible, where the specification
    has one point and a compatible counterparty. *)
Theorem word_overlap_match_not_compatible :
  _get_attachment_counterparty_names att_overlap = "Best Supplies Inc"%string :: nil
  /\ _names_match "Best Supplies EMEA" "Best Supplies Inc" = true
  /\ _calculate_name_specificity "Best Supplies EMEA" "Best Supplies Inc" = 0
  /\ _calculate_match_score tx_overlap att_overlap = (5, false).
Proof. vm_compute. repeat split; reflexivity. Qed.

(** C5, at a failing input.  A reference of one space normalizes to the
    empty string; the exact reference match returns the candidate whose
    reference is one space as well. *)
Theorem blank_references_match :
  _normalize_reference " " = ""%string
  /\ attachment_by_reference tx_blank (att_blank :: nil) = Some att_blank
  /\ find_attachment tx_blank (att_blank :: nil) = Some att_blank
  /\ transaction_by_reference att_blank (tx_blank :: nil) = Some tx_blank
  /\ find_transaction att_blank (tx_blank :: nil) = Some tx_blank.
Proof. vm_compute. repeat split; reflexivity. Qed.

(** C6, at a failing input.  A name of one space is empty once
    normalized, and matches any name. *)
Theorem blank_name_matches :
  _normalize_name " " = ""%string
  /\ _names_match " " "Jane Smith" = true
  /\ _names_match "Jane Smith" " " = true.
Proof. vm_compute. repeat split; reflexivity. Qed.

(** * Further properties *)

(** ** Reference Normalizer: shape of the result *)

Lemma normalize_reference_blank (r : string) :
  Str.is_empty r || Str.is_empty (Str.strip r) = Str.forallb Str.is_space r.
Proof.
  rewrite strip_empty. destruct r as [|c r]; [reflexivity|]. reflexivity.
Qed.

Lemma normalize_reference_unfold (r : string) :
  _normalize_reference r
  = if Str.forallb Str.is_space r then ""%string
    else
      let s := remove_whitespace (Str.upper r) in
      if Str.startswith "RF" s
      then ("RF" ++ or_zero (strip_leading_zeros (Str.drop 2 s)))%string
      else or_zero (strip_leading_zeros s).
Proof. unfold _normalize_reference. now rewrite normalize_reference_blank. Qed.

(** X1.  A normalized reference holds no whitespace and no lower-case
    letter, and it is the empty string exactly when the reference is empty
    or whitespace only. *)
Theorem normalize_reference_shape (r : string) :
  clean (_normalize_reference r) = true
  /\ (_normalize_reference r = ""%string <-> Str.forallb Str.is_space r = true).
Proof.
  rewrite normalize_reference_unfold.
  destruct (Str.forallb Str.is_space r) eqn:Hb; [split; [reflexivity|split; reflexivity]|].
  cbv zeta. pose proof (clean_remove_upper r) as Hc.
  set (s := remove_whitespace (Str.upper r)) in *.
  destruct (Str.startswith "RF" s) eqn:E.
  - destruct (startswith_RF s E) as [rest Hrest]. rewrite Hrest in *.
    change (Str.drop 2 (String "R" (String "F" rest))) with rest.
    change (clean rest = true) in Hc. split.
    + change (clean (or_zero (strip_leading_zeros rest)) = true).
      exact (clean_or_zero _ (clean_strip_leading_zeros _ Hc)).
    + split; discriminate.
  - split.
    + exact (clean_or_zero _ (clean_strip_leading_zeros _ Hc)).
    + split; [|discriminate]. intros H.
      pose proof (or_zero_not_empty (strip_leading_zeros s)) as Hn.
      rewrite H in Hn. discriminate Hn.
Qed.

(** ** Reference Normalizer: case and whitespace *)

Lemma upper_lower_char (c : ascii) : Str.upper_char (Str.lower_char c) = Str.upper_char c.
Proof. each_char c; reflexivity. Qed.

Lemma upper_upper_char (c : ascii) : Str.upper_char (Str.upper_char c) = Str.upper_char c.
Proof. each_char c; reflexivity. Qed.

Lemma lower_char_space (c : ascii) : Str.is_space (Str.lower_char c) = Str.is_space c.
Proof. each_char c; reflexivity. Qed.

Lemma upper_lower (s : string) : Str.upper (Str.lower s) = Str.upper s.
Proof.
  induction s as [|c s IH]; [reflexivity|].
  unfold Str.upper, Str.lower in *. cbn [Str.map]. now rewrite upper_lower_char, IH.
Qed.

Lemma upper_upper (s : string) : Str.upper (Str.upper s) = Str.upper s.
Proof.
  induction s as [|c s IH]; [reflexivity|].
  unfold Str.upper in *. cbn [Str.map]. now rewrite upper_upper_char, IH.
Qed.

Lemma upper_remove_whitespace (s : string) :
  remove_whitespace (Str.upper (remove_whitespace s)) = remove_whitespace (Str.upper s).
Proof.
  induction s as [|c s IH]; [reflexivity|].
  unfold remove_whitespace, Str.upper in *. cbn [Str.map Str.filter].
  destruct (Str.is_space c) eqn:E; cbn [negb].
  - rewrite upper_char_space, E. exact IH.
  - cbn [Str.map Str.filter]. rewrite upper_char_space, E. cbn [negb]. now rewrite IH.
Qed.

Lemma all_space_remove_upper (s : string) :
  Str.forallb Str.is_space s = Str.is_empty (remove_whitespace (Str.upper s)).
Proof. now rewrite remove_upper_empty. Qed.

(** The normalization reads the reference through its upper-case text
    without whitespace. *)
Lemma normalize_reference_same_text (r1 r2 : string) :
  remove_whitespace (Str.upper r1) = remove_whitespace (Str.upper r2) ->
  _normalize_reference r1 = _normalize_reference r2.
Proof.
  intros H. rewrite !normalize_reference_unfold, !all_space_remove_upper, H. reflexivity.
Qed.

(** X2.  The normalization does not see the case of the letters nor the
    whitespace: the reference in lower case, in upper case, or with its
    whitespace removed has the normalized form of the reference itself. *)
Theorem normalize_reference_case_whitespace (r : string) :
  _normalize_reference (Str.lower r) = _normalize_reference r
  /\ _normalize_reference (Str.upper r) = _normalize_reference r
  /\ _normalize_reference (remove_whitespace r) = _normalize_reference r.
Proof.
  repeat split; apply normalize_reference_same_text.
  - now rewrite upper_lower.
  - now rewrite upper_upper.
  - apply upper_remove_whitespace.
Qed.

(** ** Reference Normalizer: leading zeros *)

(** X3.  Leading zeros do not count: a zero written in front of a
    reference that is not blank and does not start with RF, and a zero
    written after the marker RF, leave the normalized form as it is. *)
Theorem normalize_reference_leading_zeros :
  (forall r : string,
     Str.forallb Str.is_space r = false ->
     Str.startswith "RF" (remove_whitespace (Str.upper r)) = false ->
     _normalize_reference (String "0" r) = _normalize_reference r)
  /\ (forall r : string,
        _normalize_reference ("RF0" ++ r) = _normalize_reference ("RF" ++ r)).
Proof.
  split.
  - intros r Hb Hrf. rewrite !normalize_reference_unfold, Hb.
    change (Str.forallb Str.is_space (String "0" r)) with false. cbv zeta.
    change (remove_whitespace (Str.upper (String "0" r)))
      with (String "0" (remove_whitespace (Str.upper r))).
    rewrite Hrf.
    change (Str.startswith "RF" (String "0" (remove_whitespace (Str.upper r)))) with false.
    cbv iota. now rewrite strip_leading_zeros_cons.
  - intros r. rewrite !normalize_reference_unfold.
    change (Str.forallb Str.is_space ("RF0" ++ r)) with false.
    change (Str.forallb Str.is_space ("RF" ++ r)) with false. cbv zeta iota.
    change (remove_whitespace (Str.upper ("RF0" ++ r)))
      with (String "R" (String "F" (String "0" (remove_whitespace (Str.upper r))))).
    change (remove_whitespace (Str.upper ("RF" ++ r)))
      with (String "R" (String "F" (remove_whitespace (Str.upper r)))).
    change (Str.startswith "RF" (String "R" (String "F" ?x))) with true.
    cbn [Str.startswith Str.drop]. cbv iota.
    now rewrite strip_leading_zeros_cons.
Qed.

Lemma normalize_reference_leading_zeros_witness :
  _normalize_reference "000123" = _normalize_reference "00123".
Proof.
  apply (proj1 normalize_reference_leading_zeros "00123"%string); reflexivity.
Defined.

(** ** Name Normalizer *)

Lemma string_app_cons (c : ascii) (a b : string) :
  (String c a ++ b)%string = String c (a ++ b).
Proof. reflexivity. Qed.

Lemma string_app_nil_r (s : string) : (s ++ "")%string = s.
Proof.
  induction s as [|c s IH]; [reflexivity|].
  rewrite string_app_cons. now f_equal.
Qed.

Lemma string_app_assoc (a b c : string) : ((a ++ b) ++ c)%string = (a ++ b ++ c)%string.
Proof.
  induction a as [|x a IH]; [reflexivity|].
  rewrite !string_app_cons. now f_equal.
Qed.

Lemma rev_append_rev_append (a b c : string) :
  Str.rev_append (Str.rev_append a b) c = Str.rev_append b (a ++ c)%string.
Proof.
  revert b c. induction a as [|x a IH]; intros b c; [reflexivity|].
  cbn [Str.rev_append]. rewrite IH. reflexivity.
Qed.

Lemma rev_append_involutive (w : string) :
  Str.rev_append (Str.rev_append w "") "" = w.
Proof. rewrite rev_append_rev_append. cbn. apply string_app_nil_r. Qed.

Lemma rev_append_empty (a b : string) :
  Str.is_empty (Str.rev_append a b) = Str.is_empty a && Str.is_empty b.
Proof.
  revert b. induction a as [|x a IH]; intros b; [reflexivity|].
  cbn [Str.rev_append]. rewrite IH. cbn. apply andb_false_r.
Qed.

Lemma forallb_rev_append (p : ascii -> bool) (a b : string) :
  Str.forallb p (Str.rev_append a b) = Str.forallb p a && Str.forallb p b.
Proof.
  revert b. induction a as [|x a IH]; intros b; [reflexivity|].
  cbn [Str.rev_append Str.forallb]. rewrite IH. cbn [Str.forallb].
  destruct (p x), (Str.forallb p a), (Str.forallb p b); reflexivity.
Qed.

Lemma forallb_app (p : ascii -> bool) (a b : string) :
  Str.forallb p (a ++ b)%string = Str.forallb p a && Str.forallb p b.
Proof.
  induction a as [|x a IH]; [reflexivity|].
  rewrite string_app_cons. cbn [Str.forallb]. rewrite IH. apply andb_assoc.
Qed.

(** The words of [split] are made of the characters of the text that are
    not whitespace, and are not empty. *)
Lemma split_go_chars (p : ascii -> bool) (s : string) :
  forall cur : string,
    Str.forallb (fun c => Str.is_space c || p c) s = true ->
    Str.forallb p cur = true ->
    forall w, In w (Str.split_go s cur) -> Str.forallb p w = true.
Proof.
  induction s as [|c s IH]; intros cur Hs Hcur w Hw.
  - cbn [Str.split_go] in Hw. destruct cur as [|x cur]; [destruct Hw|].
    destruct Hw as [<-|[]]. rewrite forallb_rev_append, Hcur. reflexivity.
  - cbn [Str.split_go Str.forallb] in Hw, Hs. apply andb_prop in Hs as [Hc Hs].
    destruct (Str.is_space c) eqn:E.
    + destruct cur as [|x cur]; cbn [Str.flush] in Hw.
      * exact (IH ""%string Hs eq_refl w Hw).
      * destruct Hw as [<-|Hw]; [rewrite forallb_rev_append, Hcur; reflexivity|].
        exact (IH ""%string Hs eq_refl w Hw).
    + apply (IH (String c cur) Hs); [|exact Hw].
      cbn [Str.forallb]. cbn [orb] in Hc. now rewrite Hc, Hcur.
Qed.

Lemma split_go_not_empty (s : string) :
  forall cur w, In w (Str.split_go s cur) -> Str.is_empty w = false.
Proof.
  induction s as [|c s IH]; intros cur w Hw.
  - cbn [Str.split_go] in Hw. destruct cur as [|x cur]; [destruct Hw|].
    destruct Hw as [<-|[]]. now rewrite rev_append_empty.
  - cbn [Str.split_go] in Hw. destruct (Str.is_space c).
    + destruct cur as [|x cur]; cbn [Str.flush] in Hw.
      * exact (IH _ w Hw).
      * destruct Hw as [<-|Hw]; [now rewrite rev_append_empty|exact (IH _ w Hw)].
    + exact (IH _ w Hw).
Qed.

Lemma split_go_word (w s cur : string) :
  Str.forallb (fun c => negb (Str.is_space c)) w = true ->
  Str.split_go (w ++ s) cur = Str.split_go s (Str.rev_append w cur).
Proof.
  revert cur. induction w as [|c w IH]; intros cur Hw; [reflexivity|].
  cbn [Str.forallb] in Hw. apply andb_prop in Hw as [Hc Hw].
  apply negb_true_iff in Hc. rewrite string_app_cons. cbn [Str.split_go Str.rev_append].
  rewrite Hc. now apply IH.
Qed.

Lemma flush_word (w : string) (out : list string) :
  Str.is_empty w = false ->
  Str.flush (Str.rev_append w "") out = w :: out.
Proof.
  intros Hw. unfold Str.flush.
  destruct (Str.rev_append w "") as [|x r] eqn:E.
  - pose proof (rev_append_empty w "") as H. rewrite E, Hw in H. discriminate H.
  - rewrite <- E, rev_append_involutive. reflexivity.
Qed.

(** [split] undoes [join] on words without whitespace. *)
Lemma split_join (ws : list string) :
  (forall w, In w ws ->
     Str.forallb (fun c => negb (Str.is_space c)) w = true /\ Str.is_empty w = false) ->
  Str.split (Str.join " " ws) = ws.
Proof.
  unfold Str.split. induction ws as [|w ws IH]; intros H; [reflexivity|].
  destruct (H w (or_introl eq_refl)) as [Hw Hne].
  cbn [Str.join]. destruct ws as [|w' ws].
  - rewrite <- (string_app_nil_r w) at 1. rewrite split_go_word by exact Hw.
    cbn [Str.split_go]. now apply flush_word.
  - rewrite split_go_word by exact Hw.
    change (" " ++ Str.join " " (w' :: ws))%string
      with (String " " (Str.join " " (w' :: ws))).
    cbn [Str.split_go]. change (Str.is_space " ") with true. cbv iota.
    rewrite flush_word by exact Hne. f_equal. apply IH.
    intros x Hx. apply H. now right.
Qed.

Lemma lower_lower_char (c : ascii) : Str.lower_char (Str.lower_char c) = Str.lower_char c.
Proof. each_char c; reflexivity. Qed.

Lemma lower_fixed (s : string) :
  Str.forallb (fun c => Ascii.eqb (Str.lower_char c) c) s = true -> Str.lower s = s.
Proof.
  induction s as [|c s IH]; [reflexivity|]. cbn [Str.forallb]. intros H.
  apply andb_prop in H as [Hc Hs]. apply Ascii.eqb_eq in Hc.
  unfold Str.lower in *. cbn [Str.map]. now rewrite Hc, IH.
Qed.

Lemma lower_all_fixed (s : string) :
  Str.forallb (fun c => Str.is_space c || Ascii.eqb (Str.lower_char c) c) (Str.lower s) = true.
Proof.
  induction s as [|c s IH]; [reflexivity|].
  unfold Str.lower in *. cbn [Str.map Str.forallb].
  rewrite IH, lower_lower_char, Ascii.eqb_refl, orb_true_r. reflexivity.
Qed.

Lemma all_space_or_not (s : string) :
  Str.forallb (fun c => Str.is_space c || negb (Str.is_space c)) s = true.
Proof.
  induction s as [|c s IH]; [reflexivity|]. cbn [Str.forallb]. rewrite IH.
  destruct (Str.is_space c); reflexivity.
Qed.

Lemma lower_app (a b : string) : Str.lower (a ++ b) = (Str.lower a ++ Str.lower b)%string.
Proof.
  induction a as [|c a IH]; [reflexivity|].
  unfold Str.lower in *. rewrite !string_app_cons. cbn [Str.map]. rewrite string_app_cons. now rewrite IH.
Qed.

Lemma lower_join (ws : list string) :
  (forall w, In w ws -> Str.lower w = w) ->
  Str.lower (Str.join " " ws) = Str.join " " ws.
Proof.
  induction ws as [|w ws IH]; intros H; [reflexivity|].
  cbn [Str.join]. destruct ws as [|w' ws]; [apply H; now left|].
  rewrite !lower_app. rewrite (H w) by now left.
  change (Str.lower " ") with " "%string. rewrite IH; [reflexivity|].
  intros x Hx. apply H. now right.
Qed.

(** A normalized name is lower-case text, its words separated by single
    spaces. *)
Lemma normalize_name_words (name : string) :
  let ws := Str.split (Str.lower name) in
  (forall w, In w ws ->
     Str.forallb (fun c => negb (Str.is_space c)) w = true /\ Str.is_empty w = false)
  /\ (forall w, In w ws -> Str.lower w = w).
Proof.
  cbv zeta. split.
  - intros w Hw. split.
    + exact (split_go_chars _ _ ""%string (all_space_or_not _) eq_refl w Hw).
    + exact (split_go_not_empty _ ""%string w Hw).
  - intros w Hw. apply lower_fixed.
    exact (split_go_chars _ _ ""%string (lower_all_fixed name) eq_refl w Hw).
Qed.

Lemma normalize_name_fixed (name : string) :
  _normalize_name (_normalize_name name) = _normalize_name name.
Proof.
  unfold _normalize_name at 2 3. destruct (Str.is_empty name); [reflexivity|].
  destruct (normalize_name_words name) as [Hw Hl].
  unfold _normalize_name.
  destruct (Str.is_empty (Str.join " " (Str.split (Str.lower name)))) eqn:E.
  - destruct (Str.join " " (Str.split (Str.lower name))); [reflexivity|discriminate E].
  - now rewrite (lower_join _ Hl), (split_join _ Hw).
Qed.

Lemma lower_upper_char (c : ascii) : Str.lower_char (Str.upper_char c) = Str.lower_char c.
Proof. each_char c; reflexivity. Qed.

Lemma lower_upper (s : string) : Str.lower (Str.upper s) = Str.lower s.
Proof.
  induction s as [|c s IH]; [reflexivity|].
  unfold Str.upper, Str.lower in *. cbn [Str.map]. now rewrite lower_upper_char, IH.
Qed.

Lemma lower_lower (s : string) : Str.lower (Str.lower s) = Str.lower s.
Proof.
  induction s as [|c s IH]; [reflexivity|].
  unfold Str.lower in *. cbn [Str.map]. now rewrite lower_lower_char, IH.
Qed.

(** X4.  [_normalize_name] is idempotent, its result is in lower case,
    and a name in upper case or in lower case has the normalized form of
    the name itself. *)
Theorem normalize_name_idempotent (name : string) :
  _normalize_name (_normalize_name name) = _normalize_name name
  /\ Str.lower (_normalize_name name) = _normalize_name name
  /\ _normalize_name (Str.upper name) = _normalize_name name
  /\ _normalize_name (Str.lower name) = _normalize_name name.
Proof.
  split; [apply normalize_name_fixed|]. split.
  - unfold _normalize_name. destruct (Str.is_empty name); [reflexivity|].
    destruct (normalize_name_words name) as [_ Hl]. exact (lower_join _ Hl).
  - unfold _normalize_name. rewrite lower_upper, lower_lower.
    destruct name; split; reflexivity.
Qed.

(** ** Name specificity *)

Lemma startswith_length (p s : string) :
  Str.startswith p s = true ->
  (String.length p <= String.length s)%nat
  /\ (String.length p = String.length s -> p = s).
Proof.
  revert s. induction p as [|a p IH]; intros s H.
  - split; [cbn; lia|]. destruct s; [reflexivity|discriminate].
  - destruct s as [|b s]; [discriminate H|]. cbn [Str.startswith] in H.
    apply andb_prop in H as [Hab H]. apply Ascii.eqb_eq in Hab. subst b.
    destruct (IH s H) as [Hle Heq]. cbn [String.length]. split; [lia|].
    intros Hl. f_equal. apply Heq. lia.
Qed.

Lemma contains_length (p s : string) :
  Str.contains p s = true ->
  (String.length p <= String.length s)%nat
  /\ (String.length p = String.length s -> p = s).
Proof.
  induction s as [|c s IH]; cbn [Str.contains]; intros H.
  - rewrite orb_false_r in H. now apply startswith_length.
  - apply orb_prop in H as [H|H]; [now apply startswith_length|].
    destruct (IH H) as [Hle _]. cbn [String.length]. split; lia.
Qed.

(** When one of two different texts contains the other, the shorter one is
    in the longer one. *)
Lemma shorter_in_longer (n1 n2 : string) :
  String.eqb n1 n2 = false ->
  Str.contains n1 n2 || Str.contains n2 n1 = true ->
  Str.contains
    (if Nat.ltb (String.length n1) (String.length n2) then n1 else n2)
    (if Nat.ltb (String.length n1) (String.length n2) then n2 else n1) = true.
Proof.
  intros Hne H. apply String.eqb_neq in Hne.
  destruct (Nat.ltb_spec (String.length n1) (String.length n2)) as [Hlt|Hge].
  - apply orb_prop in H as [H|H]; [exact H|].
    apply contains_length in H as [Hle _]. lia.
  - apply orb_prop in H as [H|H]; [|exact H].
    apply contains_length in H as [Hle Heq]. exfalso. apply Hne, Heq. lia.
Qed.

(** The specificity by cases: the branches of 3 and of 2 are never
    taken. *)
Lemma name_specificity_cases (name1 name2 : string) :
  _calculate_name_specificity name1 name2
  = if Str.is_empty name1 || Str.is_empty name2 then 0
    else if String.eqb (_normalize_name name1) (_normalize_name name2) then 4
    else if Str.contains (_normalize_name name1) (_normalize_name name2)
            || Str.contains (_normalize_name name2) (_normalize_name name1)
    then 5 else 0.
Proof.
  unfold _calculate_name_specificity.
  destruct (Str.is_empty name1 || Str.is_empty name2); [reflexivity|]. cbv zeta.
  destruct (String.eqb (_normalize_name name1) (_normalize_name name2)) eqn:E; [reflexivity|].
  destruct (Str.contains (_normalize_name name1) (_normalize_name name2)
            || Str.contains (_normalize_name name2) (_normalize_name name1)) eqn:C;
    [|reflexivity].
  now rewrite (shorter_in_longer _ _ E C).
Qed.

(** X5.  The specificity of two names is 0, 4 or 5: it is 4 exactly
    for two non-empty names of the same normalized form, and 5 exactly for
    two non-empty names of different normalized forms one of which contains
    the other.  The values 1, 2 and 3 are never returned. *)
Theorem name_specificity_values (name1 name2 : string) :
  (_calculate_name_specificity name1 name2 = 0
   \/ _calculate_name_specificity name1 name2 = 4
   \/ _calculate_name_specificity name1 name2 = 5)
  /\ (_calculate_name_specificity name1 name2 = 4
      <-> name1 <> ""%string /\ name2 <> ""%string
          /\ _normalize_name name1 = _normalize_name name2)
  /\ (_calculate_name_specificity name1 name2 = 5
      <-> name1 <> ""%string /\ name2 <> ""%string
          /\ _normalize_name name1 <> _normalize_name name2
          /\ (Str.contains (_normalize_name name1) (_normalize_name name2) = true
              \/ Str.contains (_normalize_name name2) (_normalize_name name1) = true)).
Proof.
  rewrite name_specificity_cases.
  destruct name1 as [|c1 r1]; [cbn [Str.is_empty orb]; intuition congruence|].
  destruct name2 as [|c2 r2]; [cbn [Str.is_empty orb]; intuition congruence|].
  cbn [Str.is_empty orb].
  set (n1 := _normalize_name (String c1 r1)). set (n2 := _normalize_name (String c2 r2)).
  destruct (String.eqb_spec n1 n2) as [E|E].
  - intuition congruence.
  - destruct (Str.contains n1 n2) eqn:C1; destruct (Str.contains n2 n1) eqn:C2;
      cbn [orb]; intuition congruence.
Qed.

(** X6.  The specificity does not depend on the order of the two
    names. *)
Theorem name_specificity_symmetric (name1 name2 : string) :
  _calculate_name_specificity name1 name2 = _calculate_name_specificity name2 name1.
Proof.
  rewrite !name_specificity_cases.
  rewrite (orb_comm (Str.is_empty name2)), (String.eqb_sym (_normalize_name name2)),
    (orb_comm (Str.contains (_normalize_name name2) (_normalize_name name1))).
  reflexivity.
Qed.

(** X7.  Two names of positive specificity match. *)
Theorem positive_specificity_matches (name1 name2 : string) :
  0 < _calculate_name_specificity name1 name2 -> _names_match name1 name2 = true.
Proof.
  rewrite name_specificity_cases. unfold _names_match.
  destruct (Str.is_empty name1 || Str.is_empty name2); [lia|]. cbv zeta.
  destruct (String.eqb (_normalize_name name1) (_normalize_name name2)); [reflexivity|].
  destruct (Str.contains (_normalize_name name1) (_normalize_name name2)
            || Str.contains (_normalize_name name2) (_normalize_name name1));
    [reflexivity|lia].
Qed.

Lemma positive_specificity_matches_witness :
  _names_match "Jane Doe" "Jane Doe Design" = true.
Proof. apply positive_specificity_matches. vm_compute. reflexivity. Defined.

(** ** Counterparty Extractor *)

Lemma truthy_some (o : option string) (s : string) :
  truthy o = Some s <-> o = Some s /\ s <> ""%string.
Proof.
  unfold truthy. destruct o as [t|]; [|split; [discriminate|intros [H _]; discriminate H]].
  destruct t as [|c t]; cbn [Str.is_empty].
  - split; [discriminate|]. intros [[= <-] H]. now contradiction H.
  - split; [intros [= <-]; split; [reflexivity|discriminate]|now intros [[= <-] _]].
Qed.

(** X8.  The extractor returns a name exactly when it is the value of
    [issuer], [recipient] or [supplier], is not empty, and does not hold
    the text [example company] once in lower case; it returns at most
    three names. *)
Theorem counterparty_names_spec (attachment : Att.t) (name : string) :
  (In name (_get_attachment_counterparty_names attachment)
   <-> (Att.issuer (Att.get_data attachment) = Some name
        \/ Att.recipient (Att.get_data attachment) = Some name
        \/ Att.supplier (Att.get_data attachment) = Some name)
       /\ name <> ""%string
       /\ Str.contains "example company" (Str.lower name) = false)
  /\ (List.length (_get_attachment_counterparty_names attachment) <= 3)%nat.
Proof.
  unfold _get_attachment_counterparty_names. cbv zeta.
  set (d := Att.get_data attachment). split.
  - rewrite filter_In, in_flat_map. split.
    + intros [(field & Hf & Hin) Hkeep].
      apply andb_prop in Hkeep as [Hne Hex]. apply negb_true_iff in Hex.
      destruct (truthy (field d)) as [v|] eqn:Ev; [|destruct Hin].
      destruct Hin as [<-|[]]. apply truthy_some in Ev as [Ev Hv].
      split; [|split; [exact Hv|exact Hex]].
      destruct Hf as [<-|[<-|[<-|[]]]]; auto.
    + intros (Hf & Hne & Hex). split.
      * assert (Ht : forall field : Att.Data -> option string,
                   field d = Some name -> In name
                     match truthy (field d) with Some n => n :: nil | None => nil end).
        { intros field Hv. rewrite (proj2 (truthy_some _ _) (conj Hv Hne)). now left. }
        destruct Hf as [H|[H|H]].
        -- exists Att.issuer. split; [now left|now apply Ht].
        -- exists Att.recipient. split; [right; now left|now apply Ht].
        -- exists Att.supplier. split; [right; right; now left|now apply Ht].
      * rewrite Hex. destruct name; [now contradiction Hne|reflexivity].
  - etransitivity; [apply filter_length_le|].
    cbn [flat_map]. rewrite !length_app.
    destruct (truthy (Att.issuer d)), (truthy (Att.recipient d)), (truthy (Att.supplier d));
      cbn; lia.
Qed.

(** ** Date Compatibility Checker: the tolerance *)

Lemma days_between_self (d : Date.t) : Date.days_between d d = 0.
Proof. unfold Date.days_between. lia. Qed.

(** X9.  The date test in its tolerance: dates compatible within a
    tolerance are compatible within every larger one; no dates are
    compatible within a negative tolerance; and a transaction date that
    parses is compatible, within every tolerance from 0 on, with an
    attachment that carries the same text in one of its date fields. *)
Theorem dates_tolerance (tx_date : string) (att_data : Att.Data) (t t' : Z) :
  (t <= t' ->
   _are_dates_compatible tx_date att_data t = true ->
   _are_dates_compatible tx_date att_data t' = true)
  /\ (t < 0 -> _are_dates_compatible tx_date att_data t = false)
  /\ (0 <= t ->
      Date.strptime tx_date <> None ->
      (Att.due_date att_data = Some tx_date
       \/ Att.invoicing_date att_data = Some tx_date
       \/ Att.receiving_date att_data = Some tx_date) ->
      _are_dates_compatible tx_date att_data t = true).
Proof.
  unfold _are_dates_compatible.
  destruct (Date.strptime tx_date) as [tx_dt|] eqn:P;
    [|split; [discriminate|split; [reflexivity|intros _ H; now contradiction H]]].
  split; [|split].
  - intros Hle H. apply dates_loop_true in H as (text & att_dt & Hin & Hp & Hd).
    apply dates_loop_true. exists text, att_dt. repeat split; try assumption. lia.
  - intros Hneg.
    destruct (dates_loop tx_dt t (List.map (fun field => field att_data) date_fields)) eqn:E;
      [|reflexivity].
    apply dates_loop_true in E as (text & att_dt & _ & _ & Hd). lia.
  - intros Ht _ Hf. apply dates_loop_true. exists tx_date, tx_dt.
    split; [|split; [exact P|rewrite days_between_self; cbn; exact Ht]].
    unfold date_fields. cbn [List.map].
    destruct Hf as [<-|[<-|<-]]; cbn; auto.
Qed.

Lemma dates_tolerance_witness :
  _are_dates_compatible "2024-07-15"
    (Att.mkData None None (Some "2024-07-20"%string) None None None None None) 30 = true
  /\ _are_dates_compatible "2024-07-15"
       (Att.mkData None None (Some "2024-07-15"%string) None None None None None) (-1) = false
  /\ _are_dates_compatible "2024-07-15"
       (Att.mkData None None None None (Some "2024-07-15"%string) None None None) 0 = true.
Proof.
  split; [|split].
  - apply (proj1 (dates_tolerance _ _ 15 30)); [lia|reflexivity].
  - apply (proj1 (proj2 (dates_tolerance _ _ (-1) 0))). lia.
  - apply (proj2 (proj2 (dates_tolerance "2024-07-15" _ 0 0)));
      [lia|vm_compute; discriminate|right; right; reflexivity].
Defined.

(** ** Match Scorer: the range of the score *)

Lemma specificity_in (a b : string) :
  _calculate_name_specificity a b = 0
  \/ _calculate_name_specificity a b = 4
  \/ _calculate_name_specificity a b = 5.
Proof.
  rewrite name_specificity_cases.
  repeat match goal with |- context [if ?c then _ else _] => destruct c end; auto.
Qed.

Lemma best_specificity_in (c : string) (names : list string) :
  best_specificity c names = 0 \/ best_specificity c names = 4
  \/ best_specificity c names = 5.
Proof.
  induction names as [|n l IH]; [now left|].
  cbn [best_specificity fold_right]. fold (best_specificity c l).
  destruct (_names_match c n); [|exact IH].
  destruct (specificity_in c n) as [H|[H|H]], IH as [H'|[H'|H']]; rewrite H, H'; cbn; auto.
Qed.

Lemma no_match_no_specificity (a b : string) :
  _names_match a b = false -> _calculate_name_specificity a b = 0.
Proof.
  rewrite name_specificity_cases. unfold _names_match.
  destruct (Str.is_empty a || Str.is_empty b); [reflexivity|]. cbv zeta.
  destruct (String.eqb (_normalize_name a) (_normalize_name b)); [discriminate|].
  destruct (Str.contains (_normalize_name a) (_normalize_name b)
            || Str.contains (_normalize_name b) (_normalize_name a));
    [discriminate|reflexivity].
Qed.

Lemma best_specificity_positive (c : string) (names : list string) :
  0 < best_specificity c names
  <-> exists name, In name names /\ 0 < _calculate_name_specificity c name.
Proof.
  induction names as [|n l IH].
  - cbn. split; [lia|intros (? & [] & _)].
  - cbn [best_specificity fold_right]. fold (best_specificity c l).
    pose proof (best_specificity_nonneg c l) as Hl.
    pose proof (specificity_nonneg c n) as Hn.
    destruct (_names_match c n) eqn:M.
    + split.
      * intros H. destruct (Z.max_spec (_calculate_name_specificity c n) (best_specificity c l))
          as [[_ E]|[_ E]]; rewrite E in H.
        -- apply IH in H as (x & Hx & Hp). exists x. split; [now right|exact Hp].
        -- exists n. split; [now left|exact H].
      * intros (x & [<-|Hx] & Hp); [lia|].
        assert (0 < best_specificity c l) by (apply IH; now exists x). lia.
    + rewrite IH. split.
      * intros (x & Hx & Hp). exists x. split; [now right|exact Hp].
      * intros (x & [<-|Hx] & Hp); [|now exists x].
        rewrite (no_match_no_specificity _ _ M) in Hp. lia.
Qed.

(** ** Match Scorer *)

Lemma match_points_cases (best : Z) :
  best = 4 \/ best = 5 -> match_points best = best.
Proof. intros [-> | ->]; reflexivity. Qed.

(** The counterparty part of the score: 1 point without a contact, else
    the best specificity, which is 4 or 5 when it is not 0. *)
Lemma counterparty_score_cases (tx_contact : option string) (names : list string) :
  match truthy tx_contact with
  | Some c =>
      (best_specificity c names = 0 /\ counterparty_score tx_contact names = (0, false))
      \/ ((best_specificity c names = 4 \/ best_specificity c names = 5)
          /\ counterparty_score tx_contact names = (best_specificity c names, true))
  | None => counterparty_score tx_contact names = (1, true)
  end.
Proof.
  destruct (truthy tx_contact) as [c|] eqn:T.
  - apply truthy_some in T as [-> Hc].
    rewrite (counterparty_score_contact c names Hc).
    destruct (best_specificity_in c names) as [H|H].
    + left. rewrite H. now split.
    + right. split; [exact H|]. rewrite (match_points_cases _ H).
      destruct H as [-> | ->]; reflexivity.
  - unfold counterparty_score. rewrite T. now destruct names.
Qed.

Lemma score_unfold (transaction : Tx.t) (attachment : Att.t) :
  _calculate_match_score transaction attachment
  = match Att.total_amount (Att.get_data attachment), Tx.amount transaction with
    | Some att_amount, Some tx_amount =>
        if amounts_match tx_amount att_amount then
          (3 + date_points transaction attachment
           + fst (counterparty_score (Tx.contact transaction)
                    (_get_attachment_counterparty_names attachment)),
           snd (counterparty_score (Tx.contact transaction)
                  (_get_attachment_counterparty_names attachment)))
        else (0, false)
    | _, _ => (0, false)
    end.
Proof.
  unfold _calculate_match_score, date_points. cbv zeta.
  destruct (Att.total_amount (Att.get_data attachment)) as [aa|]; [|reflexivity].
  destruct (Tx.amount transaction) as [ta|]; [|reflexivity].
  destruct (amounts_match ta aa); [|reflexivity]. cbn [negb].
  destruct (counterparty_score (Tx.contact transaction)
              (_get_attachment_counterparty_names attachment)) as [points has].
  cbn [fst snd].
  destruct (truthy (Tx.date transaction)) as [d|]; [|f_equal; lia].
  destruct (_are_dates_compatible d (Att.get_data attachment) 15); f_equal; lia.
Qed.

Lemma date_points_cases (transaction : Tx.t) (attachment : Att.t) :
  date_points transaction attachment = 0 \/ date_points transaction attachment = 2.
Proof.
  unfold date_points. destruct (truthy (Tx.date transaction)) as [d|]; [|now left].
  destruct (_are_dates_compatible d (Att.get_data attachment) 15); auto.
Qed.

(** X10.  The values of the score.  With the counterparty flag set the
    score is 4, 6, 7, 8, 9 or 10; without it the score is 0, 3 or 5.  A
    candidate is kept by the scored fallback ([score >= 5] and the flag)
    exactly when its score is at least 6. *)
Theorem score_range (transaction : Tx.t) (attachment : Att.t) :
  let score := fst (_calculate_match_score transaction attachment) in
  let has_counterparty_match := snd (_calculate_match_score transaction attachment) in
  ((has_counterparty_match = true
    /\ (score = 4 \/ score = 6 \/ score = 7 \/ score = 8 \/ score = 9 \/ score = 10))
   \/ (has_counterparty_match = false /\ (score = 0 \/ score = 3 \/ score = 5)))
  /\ (accepted transaction attachment = true <-> 6 <= score).
Proof.
  cbv zeta. unfold accepted. rewrite score_unfold.
  assert (Hnone : ((false = true /\ (0 = 4 \/ 0 = 6 \/ 0 = 7 \/ 0 = 8 \/ 0 = 9 \/ 0 = 10))
                   \/ (false = false /\ (0 = 0 \/ 0 = 3 \/ 0 = 5)))
                  /\ ((5 <=? 0) && false = true <-> 6 <= 0)).
  { split; [right; split; [reflexivity|now left]|]. split; [discriminate|lia]. }
  destruct (Att.total_amount (Att.get_data attachment)) as [aa|]; [|exact Hnone].
  destruct (Tx.amount transaction) as [ta|]; [|exact Hnone].
  destruct (amounts_match ta aa); [|exact Hnone]. clear Hnone.
  pose proof (counterparty_score_cases (Tx.contact transaction)
                (_get_attachment_counterparty_names attachment)) as H.
  pose proof (date_points_cases transaction attachment) as Hd.
  cbn [fst snd].
  destruct (truthy (Tx.contact transaction)) as [c|].
  - destruct H as [[_ ->]|[Hb ->]]; cbn [fst snd].
    + rewrite andb_false_r. split; [right; split; [reflexivity|lia]|].
      split; [discriminate|lia].
    + rewrite andb_true_r, Z.leb_le. split; [left; split; [reflexivity|lia]|lia].
  - rewrite H. cbn [fst snd]. rewrite andb_true_r, Z.leb_le.
    split; [left; split; [reflexivity|lia]|lia].
Qed.

(** X11.  What the scored fallback asks of a candidate: both amounts are
    present and pass the amount gate, and, when the transaction has a
    contact, some counterparty name of the attachment has a positive
    specificity against it (the date plays no part); when it has none, the
    transaction has a date compatible with the attachment within 15
    days. *)
Theorem accepted_iff (transaction : Tx.t) (attachment : Att.t) :
  accepted transaction attachment = true
  <-> exists tx_amount att_amount,
        Tx.amount transaction = Some tx_amount
        /\ Att.total_amount (Att.get_data attachment) = Some att_amount
        /\ amounts_match tx_amount att_amount = true
        /\ match truthy (Tx.contact transaction) with
           | Some tx_contact =>
               exists name,
                 In name (_get_attachment_counterparty_names attachment)
                 /\ 0 < _calculate_name_specificity tx_contact name
           | None =>
               exists tx_date,
                 truthy (Tx.date transaction) = Some tx_date
                 /\ _are_dates_compatible tx_date (Att.get_data attachment) 15 = true
           end.
Proof.
  unfold accepted. rewrite score_unfold.
  pose proof (counterparty_score_cases (Tx.contact transaction)
                (_get_attachment_counterparty_names attachment)) as H.
  pose proof (date_points_cases transaction attachment) as Hd.
  pose proof (best_specificity_positive) as Hpos.
  destruct (Att.total_amount (Att.get_data attachment)) as [aa|];
    [|cbn; split; [discriminate|intros (? & ? & _ & [=] & _)]].
  destruct (Tx.amount transaction) as [ta|];
    [|cbn; split; [discriminate|intros (? & ? & [=] & _)]].
  destruct (amounts_match ta aa) eqn:M;
    [|cbn; split; [discriminate|intros (? & ? & [= <-] & [= <-] & E & _); congruence]].
  cbn [fst snd].
  destruct (truthy (Tx.contact transaction)) as [c|].
  - specialize (Hpos c (_get_attachment_counterparty_names attachment)).
    destruct H as [[H0 ->]|[Hb ->]]; cbn [fst snd].
    + rewrite andb_false_r. split; [discriminate|].
      intros (? & ? & _ & _ & _ & Hn). apply Hpos in Hn. lia.
    + rewrite andb_true_r, Z.leb_le. split; [|lia].
      intros _. exists ta, aa. repeat split; [exact M|]. apply Hpos. lia.
  - rewrite H. cbn [fst snd]. rewrite andb_true_r, Z.leb_le.
    unfold date_points in *.
    destruct (truthy (Tx.date transaction)) as [d|].
    + destruct (_are_dates_compatible d (Att.get_data attachment) 15) eqn:D.
      * split; [|lia]. intros _. exists ta, aa. repeat split; [exact M|]. now exists d.
      * split; [lia|]. intros (? & ? & _ & _ & _ & d' & [= <-] & D'). congruence.
    + split; [lia|]. intros (? & ? & _ & _ & _ & d' & [=] & _).
Qed.

(** ** Matcher Query Layer *)

Lemma find_ext_in {A : Type} (f g : A -> bool) (l : list A) :
  (forall x, f x = g x) -> List.find f l = List.find g l.
Proof.
  intros H. induction l as [|x l IH]; [reflexivity|]. cbn. now rewrite H, IH.
Qed.

Lemma find_never {A : Type} (l : list A) : List.find (fun _ => false) l = None.
Proof. induction l; [reflexivity|exact IHl]. Qed.

Lemma attachment_by_reference_find (transaction : Tx.t) (attachments : list Att.t) :
  attachment_by_reference transaction attachments
  = List.find (reference_link transaction) attachments.
Proof.
  unfold attachment_by_reference, reference_link. cbv zeta.
  destruct (truthy (Tx.reference transaction)) as [r|].
  - apply find_ext_in. intros a. unfold same_reference.
    now destruct (truthy (Att.reference (Att.get_data a))).
  - symmetry. apply find_never.
Qed.

Lemma transaction_by_reference_find (attachment : Att.t) (transactions : list Tx.t) :
  transaction_by_reference attachment transactions
  = List.find (fun t => reference_link t attachment) transactions.
Proof.
  unfold transaction_by_reference, reference_link. cbv zeta.
  destruct (truthy (Att.reference (Att.get_data attachment))) as [r|].
  - apply find_ext_in. intros t. unfold same_reference.
    destruct (truthy (Tx.reference t)); [apply String.eqb_sym|reflexivity].
  - rewrite <- (find_never transactions). apply find_ext_in.
    intros t. now destruct (truthy (Tx.reference t)).
Qed.

Lemma find_attachment_query (transaction : Tx.t) (attachments : list Att.t) :
  find_attachment transaction attachments
  = linked_or_best (reference_link transaction) (accepted transaction)
      (score_of transaction) attachments.
Proof.
  unfold find_attachment, linked_or_best.
  now rewrite attachment_by_reference_find, attachment_candidates_kept.
Qed.

Lemma find_transaction_query (attachment : Att.t) (transactions : list Tx.t) :
  find_transaction attachment transactions
  = linked_or_best (fun t => reference_link t attachment) (tx_accepted attachment)
      (tx_score_of attachment) transactions.
Proof.
  unfold find_transaction, linked_or_best.
  now rewrite transaction_by_reference_find, transaction_candidates_kept.
Qed.

Lemma find_none_iff {A : Type} (p : A -> bool) (l : list A) :
  List.find p l = None <-> forall x, In x l -> p x = false.
Proof.
  induction l as [|x l IH]; cbn; [intuition|].
  destruct (p x) eqn:E.
  - split; [discriminate|]. intros H. rewrite (H x) in E by now left. discriminate E.
  - rewrite IH. split.
    + intros H y [<-|Hy]; [exact E|now apply H].
    + intros H y Hy. apply H. now right.
Qed.

Lemma filter_nil_iff {A : Type} (q : A -> bool) (l : list A) :
  List.filter q l = nil <-> forall x, In x l -> q x = false.
Proof.
  induction l as [|x l IH]; cbn; [intuition|].
  destruct (q x) eqn:E.
  - split; [discriminate|]. intros H. rewrite (H x) in E by now left. discriminate E.
  - rewrite IH. split.
    + intros H y [<-|Hy]; [exact E|now apply H].
    + intros H y Hy. apply H. now right.
Qed.

Lemma best_candidate_none {A : Type} (f : A -> Z) (kept : list A) :
  best_candidate (List.map (fun a => (a, f a)) kept) = None <-> kept = nil.
Proof.
  split.
  - intros H. pose proof (best_candidate_spec f kept) as S. now rewrite H in S.
  - intros ->. reflexivity.
Qed.

Lemma linked_or_best_none {A : Type} (p q : A -> bool) (f : A -> Z) (l : list A) :
  linked_or_best p q f l = None
  <-> forall x, In x l -> p x = false /\ q x = false.
Proof.
  unfold linked_or_best. destruct (List.find p l) as [a|] eqn:F.
  - split; [discriminate|]. intros H.
    apply find_some in F as [Hin Hp]. destruct (H a Hin) as [Hp' _]. congruence.
  - rewrite best_candidate_none, filter_nil_iff. rewrite find_none_iff in F.
    split.
    + intros H x Hx. split; [now apply F|now apply H].
    + intros H x Hx. now apply H.
Qed.

Lemma linked_or_best_some {A : Type} (p q : A -> bool) (f : A -> Z) (l : list A) (a : A) :
  linked_or_best p q f l = Some a ->
  p a = true \/ ((forall x, In x l -> p x = false) /\ q a = true).
Proof.
  unfold linked_or_best. destruct (List.find p l) as [b|] eqn:F.
  - intros [= <-]. left. now apply find_some in F.
  - intros H. right. split; [now apply find_none_iff|].
    apply best_candidate_in in H. rewrite map_map in H. cbn in H.
    rewrite map_id in H. now apply filter_In in H.
Qed.

Lemma find_skip {A : Type} (p : A -> bool) (l1 l2 : list A) (b : A) :
  p b = false -> List.find p (l1 ++ b :: l2) = List.find p (l1 ++ l2).
Proof.
  intros H. induction l1 as [|x l1 IH]; cbn; [now rewrite H|].
  now rewrite IH.
Qed.

Lemma linked_or_best_skip {A : Type} (p q : A -> bool) (f : A -> Z) (l1 l2 : list A)
    (b : A) :
  p b = false -> q b = false ->
  linked_or_best p q f (l1 ++ b :: l2) = linked_or_best p q f (l1 ++ l2).
Proof.
  intros Hp Hq. unfold linked_or_best.
  rewrite (find_skip p l1 l2 b Hp), !List.filter_app. cbn [List.filter]. now rewrite Hq.
Qed.

Lemma linked_or_best_one {A : Type} (p q : A -> bool) (f : A -> Z) (a : A) :
  linked_or_best p q f (a :: nil) = if p a || q a then Some a else None.
Proof.
  unfold linked_or_best. cbn. destruct (p a); [reflexivity|].
  now destruct (q a).
Qed.

(** X12.  A query returns [None] exactly when no candidate of the list
    is linked by its reference and no candidate is kept by the scored
    fallback; for [find_attachment] and for [find_transaction]. *)
Theorem find_none_without_candidate :
  (forall transaction attachments,
     find_attachment transaction attachments = None
     <-> forall a, In a attachments ->
           reference_link transaction a = false /\ accepted transaction a = false)
  /\ (forall attachment transactions,
        find_transaction attachment transactions = None
        <-> forall t, In t transactions ->
              reference_link t attachment = false /\ accepted t attachment = false).
Proof.
  split.
  - intros tx l. rewrite find_attachment_query. apply linked_or_best_none.
  - intros att l. rewrite find_transaction_query. apply linked_or_best_none.
Qed.

(** X13.  A candidate returned by a query is linked to the subject by
    its reference, or no candidate of the list is linked and the returned
    one is kept by the scored fallback. *)
Theorem find_result_linked_or_accepted :
  (forall transaction attachments a,
     find_attachment transaction attachments = Some a ->
     reference_link transaction a = true
     \/ ((forall b, In b attachments -> reference_link transaction b = false)
         /\ accepted transaction a = true))
  /\ (forall attachment transactions t,
        find_transaction attachment transactions = Some t ->
        reference_link t attachment = true
        \/ ((forall u, In u transactions -> reference_link u attachment = false)
            /\ accepted t attachment = true)).
Proof.
  split.
  - intros tx l a. rewrite find_attachment_query. apply linked_or_best_some.
  - intros att l t. rewrite find_transaction_query.
    apply (linked_or_best_some (fun t => reference_link t att)).
Qed.

Lemma find_result_linked_or_accepted_witness :
  reference_link tx_duplicate att_a = true
  \/ ((forall b, In b (att_b :: att_a :: nil) -> reference_link tx_duplicate b = false)
      /\ accepted tx_duplicate att_a = true).
Proof.
  apply (proj1 find_result_linked_or_accepted tx_duplicate (att_b :: att_a :: nil) att_a).
  vm_compute. reflexivity.
Defined.

(** X14.  A candidate that is neither linked by its reference nor kept
    by the scored fallback can be taken out of the list, wherever it
    stands, without a change of the result. *)
Theorem find_ignores_rejected :
  (forall transaction before after b,
     reference_link transaction b = false -> accepted transaction b = false ->
     find_attachment transaction (before ++ b :: after)
     = find_attachment transaction (before ++ after))
  /\ (forall attachment before after u,
        reference_link u attachment = false -> accepted u attachment = false ->
        find_transaction attachment (before ++ u :: after)
        = find_transaction attachment (before ++ after)).
Proof.
  split.
  - intros tx l1 l2 b Hp Hq. rewrite !find_attachment_query.
    now apply linked_or_best_skip.
  - intros att l1 l2 u Hp Hq. rewrite !find_transaction_query.
    now apply (linked_or_best_skip (fun t => reference_link t att)).
Qed.

Lemma find_ignores_rejected_witness :
  find_attachment tx_duplicate (att_b :: att_a :: nil)
  = find_attachment tx_duplicate (att_a :: nil).
Proof.
  apply (proj1 find_ignores_rejected tx_duplicate nil (att_a :: nil) att_b);
    vm_compute; reflexivity.
Defined.

(** X15.  On one transaction and one attachment the two queries agree:
    [find_attachment] returns the attachment exactly when
    [find_transaction] returns the transaction, which is exactly when the
    two are linked by their references or the pair is kept by the scored
    fallback. *)
Theorem find_single_pair (transaction : Tx.t) (attachment : Att.t) :
  (find_attachment transaction (attachment :: nil) = Some attachment
   <-> find_transaction attachment (transaction :: nil) = Some transaction)
  /\ (find_attachment transaction (attachment :: nil) = Some attachment
      <-> reference_link transaction attachment = true
          \/ accepted transaction attachment = true).
Proof.
  rewrite find_attachment_query, find_transaction_query, !linked_or_best_one.
  change (tx_accepted attachment transaction) with (accepted transaction attachment).
  rewrite <- orb_true_iff.
  destruct (reference_link transaction attachment || accepted transaction attachment);
    split; split; congruence.
Qed.

(** ** Amount Comparator: signs, order and bounds *)

Lemma abs_opp (x : float) : abs (- x) = abs x.
Proof.
  apply Prim2SF_inj. rewrite !FloatAxioms.abs_spec, FloatAxioms.opp_spec.
  now destruct (Prim2SF x).
Qed.

Lemma abs_abs (x : float) : abs (abs x) = abs x.
Proof.
  apply Prim2SF_inj. rewrite !FloatAxioms.abs_spec. now destruct (Prim2SF x).
Qed.

Lemma binary_round_aux_sign (s : bool) (m e : Z) (l : location) :
  SFabs (binary_round_aux prec emax s m e l)
  = SFabs (binary_round_aux prec emax false m e l).
Proof.
  unfold binary_round_aux.
  destruct (shr_fexp prec emax m e l) as [mrs' e'].
  destruct (shr_fexp prec emax _ e' loc_Exact) as [mrs'' e''].
  destruct (shr_m mrs''); try reflexivity.
  now destruct (e'' <=? emax - prec).
Qed.

Lemma binary_round_sign (s : bool) (m : positive) (e : Z) :
  SFabs (binary_round prec emax s m e) = SFabs (binary_round prec emax false m e).
Proof.
  unfold binary_round.
  destruct (shl_align m e (fexp prec emax (Zpos (digits2_pos m) + e))) as [mz ez].
  apply binary_round_aux_sign.
Qed.

Lemma binary_normalize_opp (m e : Z) :
  SFabs (binary_normalize prec emax (- m) e false)
  = SFabs (binary_normalize prec emax m e false).
Proof.
  destruct m as [|p|p]; cbn [Z.opp binary_normalize]; [reflexivity| |].
  - apply binary_round_sign.
  - symmetry. apply binary_round_sign.
Qed.

Lemma SFsub_swap (x y : spec_float) :
  SFabs (SF64sub x y) = SFabs (SF64sub y x).
Proof.
  unfold SF64sub, SFsub.
  destruct x as [sx|sx| |sx mx ex], y as [sy|sy| |sy my ey]; try reflexivity.
  - now destruct sx, sy.
  - now destruct sx, sy.
  - rewrite (Z.min_comm ey ex).
    rewrite <- binary_normalize_opp. f_equal. f_equal. lia.
Qed.

Lemma abs_sub_swap (x y : float) : abs (x - y) = abs (y - x).
Proof.
  apply Prim2SF_inj. rewrite !FloatAxioms.abs_spec, !FloatAxioms.sub_spec.
  apply SFsub_swap.
Qed.

Lemma extreme_precision_difference_swap (x y : float) :
  extreme_precision_difference x y = extreme_precision_difference y x.
Proof.
  unfold extreme_precision_difference. cbv zeta.
  rewrite (Z.max_comm (decimal_places (float_str x))).
  f_equal. f_equal. lia.
Qed.

Lemma is_banking_pattern_swap (x y : float) :
  is_banking_pattern x y = is_banking_pattern y x.
Proof. unfold is_banking_pattern. apply orb_comm. Qed.

Lemma is_precision_mismatch_swap (x y d : float) :
  is_precision_mismatch x y d = is_precision_mismatch y x d.
Proof.
  unfold is_precision_mismatch. cbv zeta.
  rewrite (extreme_precision_difference_swap x y), (is_banking_pattern_swap x y),
    (andb_comm (is_round x)), (orb_comm (zero_cents x)).
  reflexivity.
Qed.

(** X16.  The amount gate reads magnitudes and is symmetric: the sign of
    either amount and the order of the two amounts do not change its
    answer, and the score of a transaction is that of the transaction with
    the opposite amount. *)
Theorem amounts_match_sign_and_order (tx_amount att_amount : float) :
  amounts_match (- tx_amount) att_amount = amounts_match tx_amount att_amount
  /\ amounts_match tx_amount (- att_amount) = amounts_match tx_amount att_amount
  /\ amounts_match att_amount tx_amount = amounts_match tx_amount att_amount
  /\ forall id date contact reference attachment,
       _calculate_match_score (Tx.mk id (Some (- tx_amount)%float) date contact reference)
         attachment
       = _calculate_match_score (Tx.mk id (Some tx_amount) date contact reference)
           attachment.
Proof.
  assert (H : forall a b, amounts_match (- a) b = amounts_match a b).
  { intros a b. unfold amounts_match. cbv zeta. now rewrite !abs_opp. }
  split; [apply H|]. split; [|split].
  - unfold amounts_match. cbv zeta. now rewrite !abs_opp.
  - unfold amounts_match. cbv zeta.
    rewrite (abs_sub_swap (abs tx_amount) (abs att_amount)).
    now rewrite (is_precision_mismatch_swap (abs att_amount) (abs tx_amount)).
  - intros id date contact reference attachment.
    unfold _calculate_match_score. cbn [Tx.amount Tx.date Tx.contact]. cbv zeta.
    destruct (Att.total_amount (Att.get_data attachment)) as [aa|]; [|reflexivity].
    now rewrite H.
Qed.

(** The order of the two tolerances against a difference. *)
Lemma above_lenient_above_strict (d : float) :
  (0.011 <? d)%float = true -> (0.002 <? d)%float = true.
Proof.
  rewrite !FloatAxioms.ltb_spec.
  pose proof (Prim2SF_valid d) as V.
  change (Prim2SF 0.011) with (S754_finite false 6341068275337658 (-59)).
  change (Prim2SF 0.002) with (S754_finite false 4611686018427388 (-61)).
  destruct (Prim2SF d) as [s|s| |s m e]; try (destruct s); try discriminate;
    try reflexivity.
  unfold SFltb. rewrite !compare_valid by (exact V || reflexivity).
  destruct (sval (S754_finite false 6341068275337658 (-59)) ?= sval (S754_finite false m e))
    eqn:C; try discriminate. intros _.
  assert (Hd : sval (S754_finite false 6341068275337658 (-59))
               < sval (S754_finite false m e)) by exact C.
  assert (Hlt : sval (S754_finite false 4611686018427388 (-61))
                < sval (S754_finite false 6341068275337658 (-59))) by reflexivity.
  assert (C' : sval (S754_finite false 4611686018427388 (-61))
               < sval (S754_finite false m e)) by lia.
  now rewrite C'.
Qed.

(** X17.  The two tolerances bound the gate: a difference of the
    magnitudes above 0.011 is rejected and one not above 0.002 is accepted,
    whatever the precision rule says.  The difference is the float
    [abs(att_abs - tx_abs)] of the code. *)
Theorem amount_gate_bounds (tx_amount att_amount : float) :
  let amount_diff := abs (abs att_amount - abs tx_amount) in
  ((0.011 <? amount_diff)%float = true -> amounts_match tx_amount att_amount = false)
  /\ ((0.002 <? amount_diff)%float = false -> amounts_match tx_amount att_amount = true).
Proof.
  cbv zeta. unfold amounts_match. cbv zeta.
  set (d := abs (abs att_amount - abs tx_amount)).
  set (flag := is_precision_mismatch (abs tx_amount) (abs att_amount) d).
  split; intros H.
  - destruct flag; [rewrite (above_lenient_above_strict d H)|rewrite H]; reflexivity.
  - destruct flag; [now rewrite H|].
    destruct (0.011 <? d)%float eqn:E; [|reflexivity].
    rewrite (above_lenient_above_strict d E) in H. discriminate H.
Qed.

Lemma amount_gate_bounds_witness :
  amounts_match 100 100.02 = false /\ amounts_match (-175) 175.001 = true.
Proof.
  split.
  - apply (proj1 (amount_gate_bounds 100 100.02)). vm_compute. reflexivity.
  - apply (proj2 (amount_gate_bounds (-175) 175.001)). vm_compute. reflexivity.
Defined.





(** ** Names: case and whitespace *)

Lemma is_empty_map (f : ascii -> ascii) (s : string) :
  Str.is_empty (Str.map f s) = Str.is_empty s.
Proof. now destruct s. Qed.

Lemma normalize_name_upper (name : string) :
  _normalize_name (Str.upper name) = _normalize_name name.
Proof.
  unfold _normalize_name. rewrite lower_upper. unfold Str.upper.
  now rewrite is_empty_map.
Qed.

Lemma normalize_name_lower (name : string) :
  _normalize_name (Str.lower name) = _normalize_name name.
Proof.
  unfold _normalize_name. rewrite lower_lower. unfold Str.lower.
  now rewrite is_empty_map.
Qed.

(** Matching and specificity read a name through its emptiness and its
    normalized form only. *)
Lemma names_by_norm (a a' b b' : string) :
  Str.is_empty a = Str.is_empty a' -> _normalize_name a = _normalize_name a' ->
  Str.is_empty b = Str.is_empty b' -> _normalize_name b = _normalize_name b' ->
  _names_match a b = _names_match a' b'
  /\ _calculate_name_specificity a b = _calculate_name_specificity a' b'.
Proof.
  intros Ea Na Eb Nb. unfold _names_match, _calculate_name_specificity.
  now rewrite Ea, Na, Eb, Nb.
Qed.

(** X19.  The name matcher and the specificity do not see the case of
    the letters of either name. *)
Theorem names_case_insensitive (name1 name2 : string) :
  _names_match (Str.upper name1) (Str.lower name2) = _names_match name1 name2
  /\ _names_match (Str.lower name1) (Str.upper name2) = _names_match name1 name2
  /\ _calculate_name_specificity (Str.upper name1) (Str.lower name2)
     = _calculate_name_specificity name1 name2
  /\ _calculate_name_specificity (Str.lower name1) (Str.upper name2)
     = _calculate_name_specificity name1 name2.
Proof.
  destruct (names_by_norm (Str.upper name1) name1 (Str.lower name2) name2) as [H1 H2];
    [apply is_empty_map|apply normalize_name_upper
    |apply is_empty_map|apply normalize_name_lower|].
  destruct (names_by_norm (Str.lower name1) name1 (Str.upper name2) name2) as [H3 H4];
    [apply is_empty_map|apply normalize_name_lower
    |apply is_empty_map|apply normalize_name_upper|].
  auto.
Qed.

(** X20.  A name whose normalized form is not empty can be replaced by
    its normalized form, on either side of the matcher and in the
    specificity.  (A name of whitespace only has an empty normalized form
    and is not covered.) *)
Theorem names_normal_form (name1 name2 : string) :
  _normalize_name name1 <> ""%string ->
  _names_match (_normalize_name name1) name2 = _names_match name1 name2
  /\ _names_match name2 (_normalize_name name1) = _names_match name2 name1
  /\ _calculate_name_specificity (_normalize_name name1) name2
     = _calculate_name_specificity name1 name2.
Proof.
  intros H.
  assert (E : Str.is_empty (_normalize_name name1) = Str.is_empty name1).
  { destruct name1 as [|c r]; [reflexivity|].
    destruct (_normalize_name (String c r)); [now contradiction H|reflexivity]. }
  destruct (names_by_norm (_normalize_name name1) name1 name2 name2 E
              (normalize_name_fixed name1) eq_refl eq_refl) as [H1 H2].
  destruct (names_by_norm name2 name2 (_normalize_name name1) name1 eq_refl eq_refl E
              (normalize_name_fixed name1)) as [H3 _].
  auto.
Qed.

Lemma names_normal_form_witness :
  _names_match (_normalize_name "  Jane   DOE ") "Doe"
  = _names_match "  Jane   DOE " "Doe".
Proof.
  refine (proj1 (names_normal_form "  Jane   DOE " "Doe" _)). vm_compute. discriminate.
Defined.

(** ** Names: the company suffixes *)

Lemma lower_word_spec (w : string) :
  lower_word w = true ->
  Str.is_empty w = false
  /\ Str.forallb (fun c => negb (Str.is_space c)) w = true
  /\ Str.lower w = w.
Proof.
  unfold lower_word. intros H. apply andb_prop in H as [Hne H].
  apply negb_true_iff in Hne. split; [exact Hne|].
  clear Hne. induction w as [|c w IH]; [split; reflexivity|].
  cbn [Str.forallb] in *. apply andb_prop in H as [Hc H].
  apply andb_prop in Hc as [Hs Hl]. apply Ascii.eqb_eq in Hl.
  destruct (IH H) as [IH1 IH2]. split; [now rewrite Hs, IH1|].
  unfold Str.lower in *. cbn [Str.map]. now rewrite Hl, IH2.
Qed.

Lemma normalize_two_words (w s : string) :
  lower_word w = true -> lower_word s = true ->
  _normalize_name (w ++ " " ++ s) = (w ++ " " ++ s)%string
  /\ Str.split (w ++ " " ++ s) = w :: s :: nil
  /\ Str.is_empty (w ++ " " ++ s) = false.
Proof.
  intros Hw Hs.
  destruct (lower_word_spec w Hw) as (Hw1 & Hw2 & Hw3).
  destruct (lower_word_spec s Hs) as (Hs1 & Hs2 & Hs3).
  assert (J : Str.join " " (w :: s :: nil) = (w ++ " " ++ s)%string) by reflexivity.
  assert (S : Str.split (w ++ " " ++ s) = w :: s :: nil).
  { rewrite <- J. apply split_join. intros x [<-|[<-|[]]]; auto. }
  assert (E : Str.is_empty (w ++ " " ++ s) = false).
  { destruct w; [discriminate Hw1|reflexivity]. }
  repeat split; [|exact S|exact E].
  unfold _normalize_name. rewrite E, !lower_app, Hw3, Hs3.
  change (Str.lower " ") with " "%string. now rewrite S.
Qed.

Lemma startswith_refl (s : string) : Str.startswith s s = true.
Proof. induction s as [|c s IH]; [reflexivity|]. cbn. now rewrite Ascii.eqb_refl. Qed.

Lemma contains_refl (s : string) : Str.contains s s = true.
Proof. destruct s; cbn [Str.contains]; now rewrite startswith_refl. Qed.

Lemma suffix_lower (s : string) : s ∈ suffixes -> Str.lower s = s.
Proof.
  unfold suffixes. rewrite elem_of_list_to_set, !elem_of_cons, elem_of_nil.
  intros H. repeat (destruct H as [->|H]; [reflexivity|]). destruct H.
Qed.

Lemma size_pair (w s : string) :
  size ({[w]} ∪ ({[s]} ∪ ∅) : gset string) = if decide (s = w) then 1%nat else 2%nat.
Proof.
  destruct (decide (s = w)) as [->|N].
  - replace ({[w]} ∪ ({[w]} ∪ ∅) : gset string) with ({[w]} : gset string) by set_solver.
    apply size_singleton.
  - replace ({[w]} ∪ ({[s]} ∪ ∅) : gset string) with ({[w]} ∪ {[s]} : gset string)
      by set_solver.
    rewrite size_union by set_solver. now rewrite !size_singleton.
Qed.

Lemma common_pair (w s1 s2 : string) :
  s1 <> s2 ->
  (({[w]} ∪ ({[s1]} ∪ ∅)) ∩ ({[w]} ∪ ({[s2]} ∪ ∅)) : gset string) = {[w]}.
Proof. intros N. set_solver. Qed.

Lemma rest_pair (w s : string) :
  (({[w]} ∪ ({[s]} ∪ ∅)) ∖ {[w]} : gset string)
  = if decide (s = w) then ∅ else {[s]}.
Proof. destruct (decide (s = w)); set_solver. Qed.

Lemma first_of_singleton (s : string) : first_of {[s]} = s.
Proof. unfold first_of. now rewrite elements_singleton. Qed.

(** Two names of two words each with the same first word, in normalized
    form. *)
Lemma shared_first_word_cases (w s1 s2 : string) :
  lower_word w = true -> lower_word s1 = true -> lower_word s2 = true ->
  _names_match (w ++ " " ++ s1) (w ++ " " ++ s2)
  = if String.eqb (w ++ " " ++ s1) (w ++ " " ++ s2) then true
    else if Str.contains (w ++ " " ++ s1) (w ++ " " ++ s2)
            || Str.contains (w ++ " " ++ s2) (w ++ " " ++ s1) then true
    else if bool_decide (s1 = w) || bool_decide (s2 = w) then true
    else bool_decide (s1 ∈ suffixes) || bool_decide (s2 ∈ suffixes).
Proof.
  intros Hw H1 H2.
  destruct (normalize_two_words w s1 Hw H1) as (N1 & S1 & E1).
  destruct (normalize_two_words w s2 Hw H2) as (N2 & S2 & E2).
  destruct (lower_word_spec s1 H1) as (_ & _ & L1).
  destruct (lower_word_spec s2 H2) as (_ & _ & L2).
  unfold _names_match. rewrite E1, E2. cbn [orb]. cbv zeta. rewrite N1, N2.
  destruct (String.eqb_spec (w ++ " " ++ s1) (w ++ " " ++ s2)) as [E|E]; [reflexivity|].
  destruct (Str.contains (w ++ " " ++ s1) (w ++ " " ++ s2)
            || Str.contains (w ++ " " ++ s2) (w ++ " " ++ s1)); [reflexivity|].
  rewrite S1, S2. cbn [list_to_set].
  assert (N : s1 <> s2) by (intros ->; now apply E).
  rewrite (common_pair w s1 s2 N), !rest_pair, !size_pair, size_singleton.
  destruct (decide (s1 = w)) as [->|D1], (decide (s2 = w)) as [->|D2].
  - now contradiction N.
  - rewrite (bool_decide_eq_true_2 (w = w)) by reflexivity.
    rewrite size_empty. reflexivity.
  - rewrite (bool_decide_eq_true_2 (w = w)) by reflexivity.
    rewrite size_empty, (orb_true_r (bool_decide (s1 = w))), orb_true_r. reflexivity.
  - rewrite (bool_decide_eq_false_2 (s1 = w)), (bool_decide_eq_false_2 (s2 = w))
      by assumption.
    rewrite !size_singleton, !first_of_singleton, L1, L2. cbn.
    now destruct (bool_decide _ || bool_decide _).
Qed.

(** X21.  The company suffixes.  Take two names of two lower-case words
    each, with the same first word.  If one of the second words is a
    company suffix ([oy], [ltd], [corp], [inc], [tmi], [ab], [as], [gmbh],
    [company], [co]) the names match.  If neither is, both differ from the
    first word, and neither name contains the other, the names do not
    match. *)
Theorem company_suffix_variants (w s1 s2 : string) :
  lower_word w = true -> lower_word s1 = true -> lower_word s2 = true ->
  (s1 ∈ suffixes \/ s2 ∈ suffixes ->
   _names_match (w ++ " " ++ s1) (w ++ " " ++ s2) = true)
  /\ (s1 ∉ suffixes -> s2 ∉ suffixes -> s1 <> w -> s2 <> w ->
      Str.contains (w ++ " " ++ s1) (w ++ " " ++ s2) = false ->
      Str.contains (w ++ " " ++ s2) (w ++ " " ++ s1) = false ->
      _names_match (w ++ " " ++ s1) (w ++ " " ++ s2) = false).
Proof.
  intros Hw H1 H2. rewrite (shared_first_word_cases w s1 s2 Hw H1 H2). split.
  - intros H.
    assert (B : bool_decide (s1 ∈ suffixes) || bool_decide (s2 ∈ suffixes) = true).
    { destruct H as [H|H]; rewrite (bool_decide_eq_true_2 _ H);
        [reflexivity|apply orb_true_r]. }
    rewrite B. repeat match goal with |- context [if ?c then _ else _] => destruct c end;
      reflexivity.
  - intros F1 F2 D1 D2 C1 C2. rewrite C1, C2.
    rewrite (bool_decide_eq_false_2 _ F1), (bool_decide_eq_false_2 _ F2),
      (bool_decide_eq_false_2 _ D1), (bool_decide_eq_false_2 _ D2).
    destruct (String.eqb_spec (w ++ " " ++ s1) (w ++ " " ++ s2)) as [E|E]; [|reflexivity].
    rewrite E, contains_refl in C1. discriminate C1.
Qed.

Lemma company_suffix_variants_witness :
  _names_match "nokia oy" "nokia solutions" = true
  /\ _names_match "nokia east" "nokia west" = false.
Proof.
  split.
  - apply (proj1 (company_suffix_variants "nokia" "oy" "solutions"
                    eq_refl eq_refl eq_refl)).
    left. vm_compute. reflexivity.
  - apply (proj2 (company_suffix_variants "nokia" "east" "west"
                    eq_refl eq_refl eq_refl));
      try (vm_compute; congruence); try reflexivity.
Defined.

(** ** Examples *)

(** The decimal-place rule: 50.0 and 50.005001 have 1 and 6 decimals, and
    the pair is held to the strict tolerance. *)
Example half_cent_with_long_decimals :
  half_cent_apart (abs (abs 50.005001 - abs 50))%float = true
  /\ extreme_precision_difference (abs 50) (abs 50.005001) = true
  /\ amounts_match 50 50.005001 = false.
Proof. vm_compute. repeat split; reflexivity. Qed.

(** The cases of [edge_case_tests.py] and of the specification. *)
Example normalize_reference_examples :
  List.map _normalize_reference
    (""%string :: "   " :: "0000" :: "000123" :: "RF00 0000 0000 1234" :: "12 34 56"
       :: "abc123def" :: "12.34-56" :: nil)%string
  = (""%string :: "" :: "0" :: "123" :: "RF1234" :: "123456" :: "ABC123DEF"
       :: "12.34-56" :: nil)%string.
Proof. vm_compute. reflexivity. Qed.

Example names_match_examples :
  _names_match "Jane Doe" "Jane Doe Design" = true
  /\ _names_match "Jane Smith" "John Smith" = false
  /\ _names_match "Global Trading Corp" "Global Corp Trading" = true
  /\ _names_match "Apple Inc" "Orange Inc" = false.
Proof. vm_compute. repeat split; reflexivity. Qed.

Example dates_examples :
  let due (d : string) := Att.mkData None None (Some d) None None None None None in
  _are_dates_compatible "2024-07-15" (due "2024-07-30") 15 = true
  /\ _are_dates_compatible "2024-07-15" (due "2024-07-31") 15 = false
  /\ _are_dates_compatible "2024-07-15" (due "2024-06-30") 15 = true
  /\ _are_dates_compatible "2024-07-15" (due "2024-06-29") 15 = false
  /\ _are_dates_compatible "invalid" (due "2024-07-15") 15 = false
  /\ _are_dates_compatible "2024-07-15" (due "invalid") 15 = false
  /\ _are_dates_compatible "2024-07-15"
       (Att.mkData None None (Some "invalid"%string) (Some "2024-07-20"%string)
          None None None None) 15 = true.
Proof. vm_compute. repeat split; reflexivity. Qed.

Example amounts_examples :
  amounts_match 175 175 = true
  /\ amounts_match (-175) 175 = true
  /\ amounts_match 200 200.01 = false
  /\ amounts_match 50 50.005 = true
  /\ amounts_match 99.99 100 = true
  /\ amounts_match (-50) 50.05 = false.
Proof. vm_compute. repeat split; reflexivity. Qed.

Example end_to_end :
  find_attachment tx_duplicate (att_a :: att_b :: nil) = Some att_a
  /\ find_transaction att_a (tx_duplicate_again :: tx_duplicate :: nil) = Some tx_duplicate_again
  /\ find_attachment (Tx.mk 9003 (Some (-50)%float) (Some "2024-07-15"%string) None None)
       (Att.mk 8005 (Some (no_reference_data (Some 50.05%float)
                             (Some "2024-07-15"%string) None None None)) :: nil)
     = None.
Proof. vm_compute. repeat split; reflexivity. Qed.
